(** * covid19_inference.models: SIR_model_with_change_points

    A shallow embedding of [src/covid19_inference/models.py] and the
    properties of the model assembler.

    Conventions of the embedding.
    - Python floats are exact rationals ([Q]); [0.4] is [2 # 5].
    - A [datetime.datetime] is its offset from a fixed epoch in seconds;
      [(a - b).days] is the floor of the difference divided by 86400.
    - A Python [dict] is an insertion-ordered association list; dictionaries
      live in a heap and are passed by reference, as in Python.
    - The theano graph built inside [with pm.Model()] is a term of type
      [tensor]; the helpers of [modelling_help_functions] are opaque nodes.
    - [num_days_sim] and [diff_data_sim] are integers and [new_cases_obs] is
      a one-dimensional array, so that [len(new_cases_obs)] and
      [new_cases_obs.shape[-1]] agree.
    - A [pm.<Distribution>] call records the name and the arguments of the
      variable; what PyMC3 itself checks about them is not part of the model.
    - Greek letters of source identifiers are spelled out ([lam] for λ,
      [mu] for μ, [sigma_obs] for σ_obs); string literals keep them. *)

From Stdlib Require Import QArith Reals Lra Lia ZArith String DecimalString DecimalNat.

From stdpp Require Import base list.
Open Scope string_scope.

Open Scope list_scope.

(** ** Python values and dictionaries *)

Inductive pyval : Type :=
| VNum (q : Q)          (* int or float *)
| VNone                 (* None *)
| VDate (secs : Z).     (* datetime.datetime *)

Abbreviation dict := (list (string * pyval)).

Fixpoint dict_get (k : string) (d : dict) : option pyval :=
  match d with
  | [] => None
  | (k', v) :: d' => if String.eqb k k' then Some v else dict_get k d'
  end.

(* [k in d] *)
Definition dict_mem (k : string) (d : dict) : bool :=
  match dict_get k d with Some _ => true | None => false end.

(* [d[k] = v]: overwrite in place, or append as the newest entry *)
Fixpoint dict_set (k : string) (v : pyval) (d : dict) : dict :=
  match d with
  | [] => [(k, v)]
  | (k', v') :: d' =>
      if String.eqb k k' then (k', v) :: d' else (k', v') :: dict_set k v d'
  end.

(* [d.keys()] *)
Definition dict_keys (d : dict) : list string := map fst d.

(** ** Heap, model context, exceptions *)

(* a reference is an address in the heap *)
Abbreviation ref := nat (only parsing).

Inductive dist : Type :=
| HalfCauchy (beta : pyval)
| Lognormal (mu_log : Q) (sigma : pyval)          (* mu = np.log(mu_log) *)
| Normal (mu : Z) (sigma : pyval)
| StudentT (nu : Z) (mu sigma : tensor) (observed : list Q)
| Deterministic (var : tensor)
with tensor : Type :=
| TNum (q : Q)
| TVar (name : string)                             (* a declared variable *)
| TAdd (a b : tensor)
| TSub (a b : tensor)
| TMul (a b : tensor)
| TAbs (a : tensor)                                (* tt.abs_ *)
| TPow (a : tensor) (q : Q)                       (* a ** q *)
| TSlice (a : tensor) (n : nat)                   (* a[:n] *)
| TSmoothStep (lam_begin lam_end : Q) (t_begin t_end : tensor) (t_total : Z)
| TSIR_new_I (lam mu S_begin I_begin : tensor) (N : Q)
| TDelayCases (new_I : tensor) (len_new_I_t len_new_cases_obs : Z)
              (delay : tensor) (delay_arr : Z).

Inductive exn : Type :=
| RuntimeError (msg : string)
| TypeError
| KeyError (k : string)
| BadReference.          (* a reference outside the heap: no Python run has it *)

Record state : Type := mkState {
  heap : list dict;                  (* the dictionaries reachable by the caller *)
  model : list (string * dist)       (* variables registered in the pm.Model *)
}.

Inductive outcome (A : Type) : Type :=
| Ok (a : A)
| Raise (e : exn).

Arguments Ok {A} a.

Arguments Raise {A} e.

Definition M (A : Type) : Type := state -> state * outcome A.

Definition ret {A} (a : A) : M A := fun s => (s, Ok a).

Definition bind {A B} (c : M A) (k : A -> M B) : M B :=
  fun s => match c s with
           | (s', Ok a) => k a s'
           | (s', Raise e) => (s', Raise e)
           end.

Definition raise {A} (e : exn) : M A := fun s => (s, Raise e).

Declare Scope py_scope.
Delimit Scope py_scope with py.

Notation "x <- c ;; k" := (bind c (fun x => k))
  (at level 100, c at next level, right associativity) : py_scope.

Notation "c ;; k" := (bind c (fun _ => k))
  (at level 100, right associativity) : py_scope.

Open Scope py_scope.

Definition load (r : ref) : M dict :=
  fun s => match heap s !! r with
           | Some d => (s, Ok d)
           | None => (s, Raise BadReference)
           end.

Definition store (r : ref) (d : dict) : M unit :=
  fun s => (mkState (<[r := d]> (heap s)) (model s), Ok tt).

(* [dict()] *)
Definition alloc (d : dict) : M ref :=
  fun s => (mkState (heap s ++ [d]) (model s), Ok (length (heap s))).

(* [r[k]] *)
Definition getitem (r : ref) (k : string) : M pyval :=
  d <- load r ;;
  match dict_get k d with
  | Some v => ret v
  | None => raise (KeyError k)
  end.

(* [with pm.Model() as model] *)
Definition new_model : M unit :=
  fun s => (mkState (heap s) [], Ok tt).

(* [pm.<Dist>(name, ...)]: registers the variable, evaluates to its node *)
Definition declare (name : string) (d : dist) : M tensor :=
  fun s => (mkState (heap s) (model s ++ [(name, d)]), Ok (TVar name)).

Definition get_model : M (list (string * dist)) :=
  fun s => (s, Ok (model s)).

(* [for i, x in enumerate(l)] threading the loop's local variables *)
Fixpoint for_enumerate {A L} (i : nat) (l : list A) (body : nat -> A -> L -> M L)
    (acc : L) : M L :=
  match l with
  | [] => ret acc
  | x :: l' => acc' <- body i x acc ;; for_enumerate (S i) l' body acc'
  end.

(* [for x in l] *)
Fixpoint for_each {A} (l : list A) (body : A -> M unit) : M unit :=
  match l with
  | [] => ret tt
  | x :: l' => body x ;; for_each l' body
  end.

(** ** Numbers, dates and strings *)

Definition Qltb (a b : Q) : bool := negb (Qle_bool b a).

(* ["{}".format(n)] *)
Definition format_nat (n : nat) : string := NilEmpty.string_of_uint (Nat.to_uint n).

(* [(a - b).days] *)
Definition days_between (a b : Z) : Z := ((a - b) / 86400)%Z.

(* [np.log(v)]: kept symbolic, defined on numbers only *)
Definition np_log (v : pyval) : M Q :=
  match v with
  | VNum q => ret q
  | _ => raise TypeError
  end.

(* the operand of an arithmetic expression *)
Definition as_number (v : pyval) : M Q :=
  match v with
  | VNum q => ret q
  | _ => raise TypeError
  end.

(* [a > b] on configuration values *)
Definition py_gt (a b : pyval) : M bool :=
  match a, b with
  | VNum x, VNum y => ret (Qltb y x)
  | VDate x, VDate y => ret (Z.ltb y x)
  | _, _ => raise TypeError
  end.

(* [a - date_begin_simulation] followed by [.days] *)
Definition date_minus_days (a : pyval) (b : Z) : M Z :=
  match a with
  | VDate x => ret (days_between x b)
  | _ => raise TypeError
  end.

(* [sum(l)]: Python starts from the integer 0 *)
Definition py_sum (l : list tensor) : tensor := fold_left TAdd l (TNum 0).

(** ** The assembler: [SIR_model_with_change_points] *)

Definition default_priors : dict :=
  [ ("prior_beta_I_begin", VNum 100);
    ("prior_median_λ_0", VNum (2 # 5));
    ("prior_sigma_λ_0", VNum (1 # 2));
    ("prior_median_μ", VNum (1 # 8));
    ("prior_sigma_μ", VNum (1 # 5));
    ("prior_median_delay", VNum 8);
    ("prior_sigma_delay", VNum (1 # 5));
    ("prior_beta_σ_obs", VNum 10) ].

Definition default_priors_change_points : dict :=
  [ ("prior_median_λ", VNum (2 # 5));        (* default_priors['prior_median_λ_0'] *)
    ("prior_sigma_λ", VNum (1 # 2));         (* default_priors['prior_sigma_λ_0'] *)
    ("prior_sigma_date_begin_transient", VNum 3);
    ("prior_median_transient_len", VNum 3);
    ("prior_sigma_transient_len", VNum (3 # 10));
    ("prior_mean_date_begin_transient", VNone) ].

Definition unknown_prior_msg (prior_name : string) : string :=
  ("Prior with name " ++ prior_name ++ " not known")%string.

Definition lead_time_msg : string :=
  "diff_data_sim is to small compared to the prior delay".

Definition horizon_msg : string :=
  "Simulation ends before the end of the data. Increase num_days_sim.".

Definition ordering_msg : string :=
  "Dates of change points are not temporally ordered".

Definition N_germany : Q := 83000000.

(* lines 52-54 and 60-62: every key of the dictionary is a known option *)
Definition check_prior_names (defaults : dict) (r : ref) : M unit :=
  d <- load r ;;
  for_each (dict_keys d) (fun prior_name =>
    if dict_mem prior_name defaults then ret tt
    else raise (RuntimeError (unknown_prior_msg prior_name))).

(* lines 56-57 and 65-66: [if prior_name not in r: r[prior_name] = value] *)
Definition set_default (r : ref) (prior_name : string) (value : pyval) : M unit :=
  d <- load r ;;
  if dict_mem prior_name d then ret tt
  else store r (dict_set prior_name value d).

(* lines 52-66 *)
Definition validate_and_default (change_points_list : list ref) (priors_dic : ref)
    : M unit :=
  check_prior_names default_priors priors_dic ;;
  for_each default_priors (fun '(prior_name, value) =>
    set_default priors_dic prior_name value) ;;
  for_each change_points_list (fun change_point =>
    check_prior_names default_priors_change_points change_point) ;;
  for_each default_priors_change_points (fun '(prior_name, value) =>
    for_each change_points_list (fun change_point =>
      set_default change_point prior_name value)).

(* lines 68-71 *)
Definition check_horizon (new_cases_obs : list Q) (num_days_sim diff_data_sim : Z)
    (priors_dic : ref) : M unit :=
  a <- getitem priors_dic "prior_median_delay" ;;
  b <- getitem priors_dic "prior_median_delay" ;;
  b <- as_number b ;;                                  (* 3*b *)
  c <- getitem priors_dic "prior_sigma_delay" ;;
  c <- as_number c ;;                                  (* 3*b*c *)
  a <- as_number a ;;                                  (* a + 3*b*c *)
  if Qltb (inject_Z diff_data_sim) (a + 3 * b * c)
  then raise (RuntimeError lead_time_msg)
  else if (num_days_sim <? Z.of_nat (length new_cases_obs) + diff_data_sim)%Z
  then raise (RuntimeError horizon_msg)
  else ret tt.

(* lines 109-118: the time-dependent spreading rate *)
Definition build_lam_t (transient_begin_list transient_len_list lam_list : list tensor)
    (lam_0 : tensor) (num_days_sim : Z) : tensor :=
  let lam_step_before := hd lam_0 lam_list in          (* λ_list[0] *)
  let lam_t_list :=
    fold_left
      (fun lam_t_list '(transient_begin, transient_len, lam_step) =>
         let lam_t :=
           TMul (TSmoothStep 0 1 transient_begin
                             (TAdd transient_begin transient_len) num_days_sim)
                (TSub lam_step lam_step_before) in
         lam_t_list ++ [lam_t])
      (zip (zip transient_begin_list transient_len_list) (tl lam_list))
      [] in
  py_sum lam_t_list.

(* lines 73-155 *)
Definition build_model (new_cases_obs : list Q) (change_points_list : list ref)
    (date_begin_simulation num_days_sim diff_data_sim : Z) (priors_dic : ref)
    : M (list (string * dist)) :=
  new_model ;;
  beta <- getitem priors_dic "prior_beta_I_begin" ;;
  I_begin <- declare "I_begin" (HalfCauchy beta) ;;
  median <- getitem priors_dic "prior_median_λ_0" ;;
  mu <- np_log median ;;
  sigma <- getitem priors_dic "prior_sigma_λ_0" ;;
  lam_0 <- declare "λ_0" (Lognormal mu sigma) ;;
  lam_list <- for_enumerate 0 change_points_list
    (fun i change_point lam_list =>
       median <- getitem change_point "prior_median_λ" ;;
       mu <- np_log median ;;
       sigma <- getitem change_point "prior_sigma_λ" ;;
       lam_i <- declare ("λ_" ++ format_nat (i + 1))%string (Lognormal mu sigma) ;;
       ret (lam_list ++ [lam_i]))
    [lam_0] ;;
  begins <- for_enumerate 0 change_points_list
    (fun i change_point '(transient_begin_list, date_before) =>
       date_begin_transient <- getitem change_point "prior_mean_date_begin_transient" ;;
       unordered <- match date_before with
                    | VNone => ret false
                    | _ => py_gt date_before date_begin_transient
                    end ;;
       if (unordered : bool) then raise (RuntimeError ordering_msg) else
       prior_day_begin_transient <-
         date_minus_days date_begin_transient date_begin_simulation ;;
       sigma <- getitem change_point "prior_sigma_date_begin_transient" ;;
       transient_begin <- declare ("transient_begin_" ++ format_nat i)%string
                                  (Normal prior_day_begin_transient sigma) ;;
       ret (transient_begin_list ++ [transient_begin], date_begin_transient))
    ([], VNone) ;;
  let transient_begin_list := fst begins in
  transient_len_list <- for_enumerate 0 change_points_list
    (fun i change_point transient_len_list =>
       median <- getitem change_point "prior_median_transient_len" ;;
       mu <- np_log median ;;
       sigma <- getitem change_point "prior_sigma_transient_len" ;;
       transient_len <- declare ("transient_len_" ++ format_nat i)%string (Lognormal mu sigma) ;;
       ret (transient_len_list ++ [transient_len]))
    [] ;;
  let lam_t :=
    build_lam_t transient_begin_list transient_len_list lam_list lam_0 num_days_sim in
  median <- getitem priors_dic "prior_median_μ" ;;
  mu <- np_log median ;;
  sigma <- getitem priors_dic "prior_sigma_μ" ;;
  mu_rate <- declare "μ" (Lognormal mu sigma) ;;
  median <- getitem priors_dic "prior_median_delay" ;;
  mu <- np_log median ;;
  sigma <- getitem priors_dic "prior_sigma_delay" ;;
  delay <- declare "delay" (Lognormal mu sigma) ;;
  beta <- getitem priors_dic "prior_beta_σ_obs" ;;
  sigma_obs <- declare "σ_obs" (HalfCauchy beta) ;;
  let S_begin := TSub (TNum N_germany) I_begin in
  let new_I := TSIR_new_I lam_t mu_rate S_begin I_begin N_germany in
  let new_cases_inferred :=
    TDelayCases new_I num_days_sim (num_days_sim - diff_data_sim) delay diff_data_sim in
  let num_days_data := length new_cases_obs in
  declare "obs"
    (StudentT 4
       (TSlice new_cases_inferred num_days_data)
       (TMul (TPow (TAbs (TAdd (TSlice new_cases_inferred num_days_data) (TNum 1)))
                   (1 # 2))
             sigma_obs)
       new_cases_obs) ;;
  declare "λ_t" (Deterministic lam_t) ;;
  declare "new_cases" (Deterministic new_cases_inferred) ;;
  get_model.

Definition SIR_model_with_change_points (new_cases_obs : list Q)
    (change_points_list : list ref) (date_begin_simulation num_days_sim diff_data_sim : Z)
    (priors_dic : option ref) : M (list (string * dist)) :=
  priors_dic <- match priors_dic with
                | None => alloc []                        (* priors_dic = dict() *)
                | Some r => ret r
                end ;;
  validate_and_default change_points_list priors_dic ;;
  check_horizon new_cases_obs num_days_sim diff_data_sim priors_dic ;;
  build_model new_cases_obs change_points_list date_begin_simulation num_days_sim
              diff_data_sim priors_dic.

(* a call from a caller whose dictionaries are [h] *)
Definition call (h : list dict) (new_cases_obs : list Q) (change_points_list : list ref)
    (date_begin_simulation num_days_sim diff_data_sim : Z) (priors_dic : option ref)
    : state * outcome (list (string * dist)) :=
  SIR_model_with_change_points new_cases_obs change_points_list date_begin_simulation
    num_days_sim diff_data_sim priors_dic (mkState h []).

(* midnight of day [n] after the epoch *)
Definition day (n : Z) : Z := (n * 86400)%Z.

(** ** The phases and the graph, described as functions *)

(* the key that lines 53-54 and 61-62 report, if any *)
Definition first_unknown (defaults : dict) (keys : list string) : option string :=
  List.find (fun k => negb (dict_mem k defaults)) keys.

(* every key of [d] is an option of [defaults] *)
Definition all_known (defaults d : dict) : bool :=
  forallb (fun k => dict_mem k defaults) (dict_keys d).

(* [if k not in d: d[k] = v] on the dictionary itself *)
Definition set_default_dict (k : string) (v : pyval) (d : dict) : dict :=
  if dict_mem k d then d else dict_set k v d.

(* the loop of lines 55-57, and of lines 63-66 for one change point *)
Definition fill_defaults (defaults d : dict) : dict :=
  fold_left (fun d kv => set_default_dict (fst kv) (snd kv) d) defaults d.

(* the value a key has once the defaults are in *)
Definition lookup_default (defaults d : dict) (k : string) : option pyval :=
  match dict_get k d with
  | Some v => Some v
  | None => dict_get k defaults
  end.

(* the heap after the dictionaries [rs] received the defaults *)
Definition fill_refs (defaults : dict) (rs : list ref) (h : list dict) : list dict :=
  fold_left (fun h r => alter (fill_defaults defaults) r h) rs h.

(* the dictionary behind a reference *)
Definition dict_at (h : list dict) (r : ref) : dict := default [] (h !! r).

(* the first unknown key met by the loop of lines 59-62 *)
Fixpoint first_unknown_cp (h : list dict) (cps : list ref) : option string :=
  match cps with
  | [] => None
  | r :: cps' =>
      match first_unknown default_priors_change_points (dict_keys (dict_at h r)) with
      | Some k => Some k
      | None => first_unknown_cp h cps'
      end
  end.

(* lines 52-66 as a function of the caller's heap *)
Definition validate_outcome (h : list dict) (cps : list ref) (p : ref)
    : list dict * outcome unit :=
  match first_unknown default_priors (dict_keys (dict_at h p)) with
  | Some k => (h, Raise (RuntimeError (unknown_prior_msg k)))
  | None =>
      let h1 := alter (fill_defaults default_priors) p h in
      match first_unknown_cp h1 cps with
      | Some k => (h1, Raise (RuntimeError (unknown_prior_msg k)))
      | None => (fill_refs default_priors_change_points cps h1, Ok tt)
      end
  end.

(* every reference of the call points into the heap *)
Definition refs_ok (h : list dict) (cps : list ref) (p : ref) : bool :=
  (p <? length h)%nat && forallb (fun r => (r <? length h)%nat) cps.

(* [Q] holds of the state and outcome of running [c] from [s] *)
Definition wp {A} (c : M A) (s : state) (Q : state -> outcome A -> Prop) : Prop :=
  Q (fst (c s)) (snd (c s)).

(* the outcome of [r[k]] in heap [h] *)
Definition read_item (h : list dict) (r : ref) (k : string) : outcome pyval :=
  match h !! r with
  | None => Raise BadReference
  | Some d => match dict_get k d with
              | Some v => Ok v
              | None => Raise (KeyError k)
              end
  end.

(* the four checks of the assembler raise RuntimeError; reads never do *)
Definition is_runtime_error (e : exn) : bool :=
  match e with RuntimeError _ => true | _ => false end.

Definition lam_name (i : nat) : string := ("λ_" ++ format_nat i)%string.

Definition transient_begin_name (i : nat) : string :=
  ("transient_begin_" ++ format_nat i)%string.

Definition transient_len_name (i : nat) : string :=
  ("transient_len_" ++ format_nat i)%string.

(* the names registered for [n] change points, in declaration order *)
Definition expected_names (n : nat) : list string :=
  ["I_begin"; "λ_0"]
  ++ map (fun i => lam_name (i + 1)) (seq 0 n)
  ++ map transient_begin_name (seq 0 n)
  ++ map transient_len_name (seq 0 n)
  ++ ["μ"; "delay"; "σ_obs"; "obs"; "λ_t"; "new_cases"].

(* the term appended to [λ_t_list] for the change point of index [i] *)
Definition increment (num_days_sim : Z) (i : nat) : tensor :=
  TMul (TSmoothStep 0 1 (TVar (transient_begin_name i))
                    (TAdd (TVar (transient_begin_name i)) (TVar (transient_len_name i)))
                    num_days_sim)
       (TSub (TVar (lam_name (i + 1))) (TVar "λ_0")).

Definition lam_t_graph (n : nat) (num_days_sim : Z) : tensor :=
  py_sum (map (increment num_days_sim) (seq 0 n)).

Definition new_cases_graph (n : nat) (num_days_sim diff_data_sim : Z) : tensor :=
  TDelayCases
    (TSIR_new_I (lam_t_graph n num_days_sim) (TVar "μ")
                (TSub (TNum N_germany) (TVar "I_begin")) (TVar "I_begin") N_germany)
    num_days_sim (num_days_sim - diff_data_sim) (TVar "delay") diff_data_sim.

Definition obs_scale_graph (expected : tensor) : tensor :=
  TMul (TPow (TAbs (TAdd expected (TNum 1))) (1 # 2)) (TVar "σ_obs").

Definition obs_dist (n : nat) (num_days_sim diff_data_sim : Z) (new_cases_obs : list Q)
    : dist :=
  let expected :=
    TSlice (new_cases_graph n num_days_sim diff_data_sim) (length new_cases_obs) in
  StudentT 4 expected (obs_scale_graph expected) new_cases_obs.

Definition shape_post (h : list dict) (new_cases_obs : list Q) (n : nat)
    (num_days_sim diff_data_sim : Z) (s' : state) (o : outcome (list (string * dist)))
    : Prop :=
  heap s' = h /\
  match o with
  | Ok m =>
      m = model s' /\
      map fst m = expected_names n /\
      exists m1,
        m = m1 ++ [ ("obs", obs_dist n num_days_sim diff_data_sim new_cases_obs);
                    ("λ_t", Deterministic (lam_t_graph n num_days_sim));
                    ("new_cases",
                     Deterministic (new_cases_graph n num_days_sim diff_data_sim)) ]
  | Raise e => is_runtime_error e = true -> e = RuntimeError ordering_msg
  end.

(* the heap and the priors reference once [priors_dic] is bound (lines 34-35) *)
Definition entry_heap (h : list dict) (priors_dic : option ref) : list dict :=
  match priors_dic with None => h ++ [[]] | Some _ => h end.

Definition entry_ref (h : list dict) (priors_dic : option ref) : ref :=
  match priors_dic with None => length h | Some p => p end.

Definition number_of (v : pyval) : outcome Q :=
  match v with VNum q => Ok q | _ => Raise TypeError end.

(* lines 68-71 as a function of the heap *)
Definition horizon_outcome (h : list dict) (new_cases_obs : list Q)
    (num_days_sim diff_data_sim : Z) (p : ref) : outcome unit :=
  match read_item h p "prior_median_delay" with
  | Raise e => Raise e
  | Ok a =>
      match number_of a with
      | Raise e => Raise e
      | Ok a =>
          match read_item h p "prior_sigma_delay" with
          | Raise e => Raise e
          | Ok c =>
              match number_of c with
              | Raise e => Raise e
              | Ok c =>
                  if Qltb (inject_Z diff_data_sim) (a + 3 * a * c)
                  then Raise (RuntimeError lead_time_msg)
                  else if (num_days_sim <? Z.of_nat (length new_cases_obs)
                                           + diff_data_sim)%Z
                  then Raise (RuntimeError horizon_msg)
                  else Ok tt
              end
          end
      end
  end.

(* every supplied key is a recognised option, and the priors dictionary is not
   one of the change-point dictionaries *)
Definition config_ok (h : list dict) (cps : list ref) (p : ref) : bool :=
  all_known default_priors (dict_at h p)
  && negb (bool_decide (p ∈ cps))
  && forallb (fun r => all_known default_priors_change_points (dict_at h r)) cps.

(* the heap once lines 52-66 have run to their end *)
Definition defaulted (h : list dict) (cps : list ref) (p : ref) : list dict :=
  fill_refs default_priors_change_points cps (alter (fill_defaults default_priors) p h).

Definition gt_outcome (a b : pyval) : outcome bool :=
  match a, b with
  | VNum x, VNum y => Ok (Qltb y x)
  | VDate x, VDate y => Ok (Z.ltb y x)
  | _, _ => Raise TypeError
  end.

(* lines 87-96, restricted to the values of 'prior_mean_date_begin_transient' *)
Fixpoint date_scan (date_before : pyval) (dates : list pyval) : outcome unit :=
  match dates with
  | [] => Ok tt
  | date_begin_transient :: dates' =>
      match (match date_before with
             | VNone => Ok false
             | _ => gt_outcome date_before date_begin_transient
             end) with
      | Raise e => Raise e
      | Ok true => Raise (RuntimeError ordering_msg)
      | Ok false =>
          match date_begin_transient with
          | VDate _ => date_scan date_begin_transient dates'
          | _ => Raise TypeError
          end
      end
  end.

Definition is_num (o : outcome pyval) : bool :=
  match o with Ok (VNum _) => true | _ => false end.

(* the value read by [r[k]], when the read succeeds *)
Definition item (h : list dict) (k : string) (r : ref) : pyval :=
  match read_item h r k with Ok v => v | Raise _ => VNone end.

Definition date_key : string := "prior_mean_date_begin_transient".

(* every option of the defaults can be read from the priors dictionary and from
   each change point: what lines 52-66 establish *)
Definition reads_ok (h : list dict) (cps : list ref) (p : ref) : Prop :=
  (forall k, dict_mem k default_priors = true -> exists v, read_item h p k = Ok v) /\
  (forall r k, r ∈ cps -> dict_mem k default_priors_change_points = true ->
     exists v, read_item h r k = Ok v).

(* which way lines 73-155 end *)
Definition build_result (h : list dict) (cps : list ref) (p : ref) : outcome unit :=
  if negb (is_num (read_item h p "prior_median_λ_0")) then Raise TypeError
  else if negb (forallb (fun r => is_num (read_item h r "prior_median_λ")) cps)
  then Raise TypeError
  else match date_scan VNone (map (item h date_key) cps) with
       | Raise e => Raise e
       | Ok _ =>
           if negb (forallb (fun r => is_num (read_item h r "prior_median_transient_len"))
                            cps)
           then Raise TypeError
           else if negb (is_num (read_item h p "prior_median_μ")) then Raise TypeError
           else if negb (is_num (read_item h p "prior_median_delay")) then Raise TypeError
           else Ok tt
       end.

Definition result_post (h : list dict) (cps : list ref) (p : ref)
    (s' : state) (o : outcome (list (string * dist))) : Prop :=
  match build_result h cps p with
  | Ok _ => exists m, o = Ok m
  | Raise e => o = Raise e
  end.

Definition outcome_of_option (k : string) (o : option pyval) : outcome pyval :=
  match o with Some v => Ok v | None => Raise (KeyError k) end.

(* median and sigma of the delay prior, defaults included *)
Definition delay_prior (d : dict) : option (Q * Q) :=
  match lookup_default default_priors d "prior_median_delay",
        lookup_default default_priors d "prior_sigma_delay" with
  | Some (VNum a), Some (VNum c) => Some (a, c)
  | _, _ => None
  end.

(* the bound of line 68 *)
Definition lead_time_bound (median sigma : Q) : Q := median + 3 * median * sigma.

Definition keys_recognised (h : list dict) (cps : list ref) (p : ref) : bool :=
  all_known default_priors (dict_at h p)
  && forallb (fun r => all_known default_priors_change_points (dict_at h r)) cps.

Definition is_num_opt (o : option pyval) : bool :=
  match o with Some (VNum _) => true | _ => false end.

(* the medians passed to np.log are numbers *)
Definition priors_numeric (d : dict) : bool :=
  is_num_opt (lookup_default default_priors d "prior_median_λ_0")
  && is_num_opt (lookup_default default_priors d "prior_median_μ")
  && is_num_opt (lookup_default default_priors d "prior_median_delay").

Definition cp_numeric (d : dict) : bool :=
  is_num_opt (lookup_default default_priors_change_points d "prior_median_λ")
  && is_num_opt (lookup_default default_priors_change_points d
                                "prior_median_transient_len").

(* lines 68-71 let the call through *)
Definition horizon_ok (d : dict) (new_cases_obs : list Q) (num_days_sim diff_data_sim : Z)
    : bool :=
  match delay_prior d with
  | None => false
  | Some (median, sigma) =>
      negb (Qltb (inject_Z diff_data_sim) (lead_time_bound median sigma))
      && negb (num_days_sim <? Z.of_nat (length new_cases_obs) + diff_data_sim)%Z
  end.

(* the transition-center date of a change point, when it is a datetime *)
Definition cp_date (d : dict) : option Z :=
  match dict_get date_key d with
  | Some (VDate z) => Some z
  | _ => None
  end.

Fixpoint nondecreasing (dates : list Z) : bool :=
  match dates with
  | a :: (b :: _) as dates' => (a <=? b)%Z && nondecreasing dates'
  | _ => true
  end.

(* [x ** q] for a base that is not negative and a positive exponent *)
Definition real_pow (x : R) (q : Q) : R :=
  if Req_dec_T x 0 then 0%R else Rpower x (Q2R q).

Section Denotation.
(* the values drawn for the random variables *)
Variable rv : string -> R.

(* modelling_help_functions._smooth_step_function, entry [t] of its result *)
Variable smooth_step_function : R -> R -> R -> R -> Z -> nat -> R.

(* modelling_help_functions._SIR_model, entry [t] of [new_I] *)
Variable SIR_new_I : (nat -> R) -> R -> R -> R -> R -> nat -> R.

(* modelling_help_functions._delay_cases, entry [t] of its result *)
Variable delay_cases : (nat -> R) -> Z -> Z -> R -> Z -> nat -> R.

(* entry [t] of a tensor; a scalar has the same value at every [t] *)
Fixpoint denote (e : tensor) (t : nat) : R :=
  match e with
  | TNum q => Q2R q
  | TVar name => rv name
  | TAdd a b => denote a t + denote b t
  | TSub a b => denote a t - denote b t
  | TMul a b => denote a t * denote b t
  | TAbs a => Rabs (denote a t)
  | TPow a q => real_pow (denote a t) q
  | TSlice a n => denote a t
  | TSmoothStep lam_begin lam_end t_begin t_end t_total =>
      smooth_step_function (Q2R lam_begin) (Q2R lam_end) (denote t_begin 0%nat)
                           (denote t_end 0%nat) t_total t
  | TSIR_new_I lam mu S_begin I_begin N =>
      SIR_new_I (denote lam) (denote mu 0%nat) (denote S_begin 0%nat)
                (denote I_begin 0%nat) (Q2R N) t
  | TDelayCases new_I len_new_I_t len_new_cases_obs delay delay_arr =>
      delay_cases (denote new_I) len_new_I_t len_new_cases_obs (denote delay 0%nat)
                  delay_arr t
  end%R.

End Denotation.

(* [c1] on heap [h1] and [c2] on heap [h2] leave their heaps alone, register
   the same variables and end the same way *)
Definition same_run {A} (h1 h2 : list dict) (c1 c2 : M A) : Prop :=
  forall m,
    heap (fst (c1 (mkState h1 m))) = h1
    /\ heap (fst (c2 (mkState h2 m))) = h2
    /\ model (fst (c1 (mkState h1 m))) = model (fst (c2 (mkState h2 m)))
    /\ snd (c1 (mkState h1 m)) = snd (c2 (mkState h2 m)).

(** ** The returned model as a function of the configuration *)

(* the configured value of option [k]: the caller's, or else the default *)
Definition cfg (defaults d : dict) (k : string) : pyval :=
  default VNone (lookup_default defaults d k).

(* the number in a value that np.log accepted *)
Definition num_of (v : pyval) : Q := match v with VNum q => q | _ => 0 end.

(* the instant of a value that line 92 accepted *)
Definition secs_of (v : pyval) : Z := match v with VDate z => z | _ => 0%Z end.

(* lines 75 and 79 *)
Definition head_decls (pv : string -> pyval) : list (string * dist) :=
  [ ("I_begin", HalfCauchy (pv "prior_beta_I_begin"));
    ("λ_0", Lognormal (num_of (pv "prior_median_λ_0")) (pv "prior_sigma_λ_0")) ].

(* lines 80-83 *)
Definition lam_decls (cv : ref -> string -> pyval) (cps : list ref)
    : list (string * dist) :=
  imap (fun i r => (lam_name (i + 1),
                    Lognormal (num_of (cv r "prior_median_λ")) (cv r "prior_sigma_λ")))
       cps.

(* lines 88-96 *)
Definition begin_decls (cv : ref -> string -> pyval) (d0 : Z) (cps : list ref)
    : list (string * dist) :=
  imap (fun i r => (transient_begin_name i,
                    Normal (days_between (secs_of (cv r date_key)) d0)
                           (cv r "prior_sigma_date_begin_transient")))
       cps.

(* lines 101-105 *)
Definition len_decls (cv : ref -> string -> pyval) (cps : list ref)
    : list (string * dist) :=
  imap (fun i r => (transient_len_name i,
                    Lognormal (num_of (cv r "prior_median_transient_len"))
                              (cv r "prior_sigma_transient_len")))
       cps.

(* lines 121-155 *)
Definition tail_decls (pv : string -> pyval) (n : nat) (obs : list Q) (T diff : Z)
    : list (string * dist) :=
  [ ("μ", Lognormal (num_of (pv "prior_median_μ")) (pv "prior_sigma_μ"));
    ("delay", Lognormal (num_of (pv "prior_median_delay")) (pv "prior_sigma_delay"));
    ("σ_obs", HalfCauchy (pv "prior_beta_σ_obs"));
    ("obs", obs_dist n T diff obs);
    ("λ_t", Deterministic (lam_t_graph n T));
    ("new_cases", Deterministic (new_cases_graph n T diff)) ].

(* the model of a call that returns, from the values [pv] of the priors and
   [cv r] of the change point [r] *)
Definition model_with (pv : string -> pyval) (cv : ref -> string -> pyval)
    (cps : list ref) (obs : list Q) (d0 T diff : Z) : list (string * dist) :=
  head_decls pv ++ lam_decls cv cps ++ begin_decls cv d0 cps ++ len_decls cv cps
  ++ tail_decls pv (length cps) obs T diff.

Definition trace_post (h : list dict) (obs : list Q) (cps : list ref) (d0 T diff : Z)
    (p : ref) (s' : state) (o : outcome (list (string * dist))) : Prop :=
  let pv k := item h k p in
  let cv r k := item h k r in
  heap s' = h /\
  match o with
  | Ok m => m = model_with pv cv cps obs d0 T diff
  | Raise (RuntimeError msg) =>
      msg = ordering_msg /\
      exists j r1 r2 z1 z2,
        cps !! j = Some r1 /\ cps !! S j = Some r2
        /\ cv r1 date_key = VDate z1 /\ cv r2 date_key = VDate z2 /\ (z2 < z1)%Z
        /\ model s' = head_decls pv ++ lam_decls cv cps
                      ++ begin_decls cv d0 (take (S j) cps)
  | Raise _ => True
  end.

(* the model of a call that returns, from the caller's dictionaries *)
Definition model_of_config (h : list dict) (cps : list ref) (p : ref) (obs : list Q)
    (d0 T diff : Z) : list (string * dist) :=
  model_with (cfg default_priors (dict_at h p))
             (fun r => cfg default_priors_change_points (dict_at h r))
             cps obs d0 T diff.

(* the entries of [defaults] whose key [d] lacks, in the order of [defaults] *)
Definition missing_defaults (defaults d : dict) : dict :=
  List.filter (fun kv => negb (dict_mem (fst kv) d)) defaults.

(* what lines 52-155 ask of the configuration, the data and the horizon *)
Definition call_returns (h : list dict) (cps : list ref) (p : ref) (obs : list Q)
    (T diff : Z) : Prop :=
  config_ok h cps p = true
  /\ horizon_ok (dict_at h p) obs T diff = true
  /\ priors_numeric (dict_at h p) = true
  /\ forallb (fun r => cp_numeric (dict_at h r)) cps = true
  /\ exists dates, map (fun r => cp_date (dict_at h r)) cps = map Some dates
                   /\ nondecreasing dates = true.

(** * Properties *)

(** ** Dictionaries *)

Section Dict.
Implicit Types (k : string) (v : pyval) (d : dict).

Lemma dict_get_set k k' v d :
  dict_get k (dict_set k' v d) = if String.eqb k k' then Some v else dict_get k d.
Proof.
  induction d as [|[k0 v0] d IH]; simpl.
  - reflexivity.
  - destruct (String.eqb_spec k' k0) as [->|Hne]; simpl.
    + destruct (k =? k0)%string; reflexivity.
    + rewrite IH. destruct (String.eqb_spec k k0) as [->|]; [|reflexivity].
      destruct (String.eqb_spec k0 k') as [->|]; [congruence | reflexivity].
Qed.

Lemma dict_mem_set k k' v d :
  dict_mem k (dict_set k' v d) = (String.eqb k k' || dict_mem k d)%bool.
Proof.
  unfold dict_mem. rewrite dict_get_set. destruct (k =? k')%string; reflexivity.
Qed.

Lemma dict_get_set_default k k' v d :
  dict_get k (set_default_dict k' v d)
  = match dict_get k d with
    | Some w => Some w
    | None => if String.eqb k k' then Some v else None
    end.
Proof.
  unfold set_default_dict, dict_mem.
  destruct (dict_get k' d) eqn:Hk'.
  - destruct (dict_get k d) eqn:Hk; [reflexivity|].
    destruct (String.eqb_spec k k') as [->|]; congruence.
  - rewrite dict_get_set. destruct (String.eqb_spec k k') as [->|].
    + rewrite Hk'. reflexivity.
    + destruct (dict_get k d); reflexivity.
Qed.

Lemma dict_get_fill defaults k d :
  dict_get k (fill_defaults defaults d) = lookup_default defaults d k.
Proof.
  unfold fill_defaults, lookup_default. revert d.
  induction defaults as [|[k' v'] defaults IH]; intros d; simpl.
  - destruct (dict_get k d); reflexivity.
  - rewrite IH, dict_get_set_default.
    destruct (dict_get k d); [reflexivity|].
    destruct (k =? k')%string; reflexivity.
Qed.

Lemma set_default_dict_id k v d :
  dict_mem k d = true -> set_default_dict k v d = d.
Proof. unfold set_default_dict. intros ->. reflexivity. Qed.

(* filling is the identity on a dictionary that has every default key *)
Lemma fill_defaults_id defaults d :
  (forall k, dict_mem k defaults = true -> dict_mem k d = true) ->
  fill_defaults defaults d = d.
Proof.
  unfold fill_defaults. revert d.
  induction defaults as [|[k' v'] defaults IH]; intros d Hd; simpl; [reflexivity|].
  assert (Hk' : dict_mem k' d = true).
  { apply Hd. unfold dict_mem. simpl. rewrite String.eqb_refl. reflexivity. }
  rewrite set_default_dict_id by exact Hk'.
  apply IH. intros k Hk. apply Hd. unfold dict_mem in *. simpl.
  destruct (k =? k')%string; [reflexivity | exact Hk].
Qed.

Lemma dict_mem_fill defaults k d :
  dict_mem k (fill_defaults defaults d) = (dict_mem k d || dict_mem k defaults)%bool.
Proof.
  unfold dict_mem. rewrite dict_get_fill. unfold lookup_default.
  destruct (dict_get k d); reflexivity.
Qed.

Lemma fill_defaults_idem defaults d :
  fill_defaults defaults (fill_defaults defaults d) = fill_defaults defaults d.
Proof.
  apply fill_defaults_id. intros k Hk. rewrite dict_mem_fill, Hk.
  apply orb_true_r.
Qed.

Lemma dict_mem_keys k d : dict_mem k d = true <-> In k (dict_keys d).
Proof.
  unfold dict_mem, dict_keys. induction d as [|[k' v'] d IH]; simpl.
  - split; [discriminate | tauto].
  - destruct (String.eqb_spec k k') as [->|Hne].
    + split; auto.
    + rewrite IH. split; [auto | intros [?|?]; congruence].
Qed.

(* the keys after filling: the old ones, and default keys *)
Lemma dict_keys_fill defaults d k :
  In k (dict_keys (fill_defaults defaults d)) <->
  In k (dict_keys d) \/ In k (dict_keys defaults).
Proof. rewrite <- !dict_mem_keys, dict_mem_fill. apply orb_true_iff. Qed.

Lemma all_known_spec defaults d :
  all_known defaults d = true <->
  (forall k, In k (dict_keys d) -> dict_mem k defaults = true).
Proof. unfold all_known. apply forallb_forall. Qed.

Lemma first_unknown_none defaults d :
  first_unknown defaults (dict_keys d) = None <-> all_known defaults d = true.
Proof.
  unfold first_unknown, all_known. induction (dict_keys d) as [|k ks IH]; simpl.
  - tauto.
  - destruct (dict_mem k defaults); simpl; [exact IH | split; discriminate].
Qed.

Lemma all_known_fill defaults d :
  all_known defaults (fill_defaults defaults d) = all_known defaults d.
Proof.
  apply eq_true_iff_eq. rewrite !all_known_spec. split; intros H k Hk.
  - apply H, dict_keys_fill. auto.
  - apply dict_keys_fill in Hk as [Hk|Hk]; [auto | by apply dict_mem_keys].
Qed.

End Dict.

(** ** Running the configuration phase *)

Lemma bind_ok {A B} (c : M A) (k : A -> M B) s s' a :
  c s = (s', Ok a) -> bind c k s = k a s'.
Proof. unfold bind. intros ->. reflexivity. Qed.

Lemma bind_raise {A B} (c : M A) (k : A -> M B) s s' e :
  c s = (s', Raise e) -> bind c k s = (s', Raise e).
Proof. unfold bind. intros ->. reflexivity. Qed.

Lemma load_ok r s d : heap s !! r = Some d -> load r s = (s, Ok d).
Proof. unfold load. intros ->. reflexivity. Qed.

Lemma dict_at_lookup (h : list dict) (r : ref) (d : dict) : h !! r = Some d -> dict_at h r = d.
Proof. unfold dict_at. intros ->. reflexivity. Qed.

Lemma lookup_dict_at (h : list dict) (r : ref) : (r < length h)%nat -> h !! r = Some (dict_at h r).
Proof.
  intros Hr. destruct (lookup_lt_is_Some_2 h r Hr) as [d Hd].
  rewrite Hd. f_equal. symmetry. by apply dict_at_lookup.
Qed.

Lemma check_keys_run defaults keys s :
  for_each keys (fun prior_name =>
    if dict_mem prior_name defaults then ret tt
    else raise (RuntimeError (unknown_prior_msg prior_name))) s
  = (s, match first_unknown defaults keys with
        | None => Ok tt
        | Some k => Raise (RuntimeError (unknown_prior_msg k))
        end).
Proof.
  induction keys as [|k keys IH]; simpl; [reflexivity|].
  unfold bind. destruct (dict_mem k defaults); simpl; [exact IH | reflexivity].
Qed.

Lemma check_prior_names_run defaults r s :
  (r < length (heap s))%nat ->
  check_prior_names defaults r s
  = (s, match first_unknown defaults (dict_keys (dict_at (heap s) r)) with
        | None => Ok tt
        | Some k => Raise (RuntimeError (unknown_prior_msg k))
        end).
Proof.
  intros Hr. unfold check_prior_names.
  rewrite (bind_ok _ _ _ _ _ (load_ok _ _ _ (lookup_dict_at _ _ Hr))).
  apply check_keys_run.
Qed.

Lemma set_default_run r k v s :
  (r < length (heap s))%nat ->
  set_default r k v s
  = (mkState (alter (set_default_dict k v) r (heap s)) (model s), Ok tt).
Proof.
  intros Hr. unfold set_default.
  pose proof (lookup_dict_at _ _ Hr) as Hd.
  rewrite (bind_ok _ _ _ _ _ (load_ok _ _ _ Hd)).
  assert (Halt : forall d', set_default_dict k v (dict_at (heap s) r) = d' ->
                 alter (set_default_dict k v) r (heap s) = <[r := d']> (heap s)).
  { intros d' <-. apply list_eq. intros j.
    destruct (decide (r = j)) as [<-|Hne].
    - rewrite list_lookup_alter_eq, list_lookup_insert_eq, Hd by exact Hr. reflexivity.
    - rewrite list_lookup_alter_ne, list_lookup_insert_ne by exact Hne. reflexivity. }
  destruct (dict_mem k (dict_at (heap s) r)) eqn:Hm.
  - rewrite (Halt (dict_at (heap s) r)) by (by apply set_default_dict_id).
    rewrite list_insert_id by exact Hd. destruct s; reflexivity.
  - unfold store. rewrite (Halt (dict_set k v (dict_at (heap s) r))); [reflexivity|].
    unfold set_default_dict. rewrite Hm. reflexivity.
Qed.

(* lines 55-57 *)
Lemma fill_priors_run defaults p s :
  (p < length (heap s))%nat ->
  for_each defaults (fun '(prior_name, value) => set_default p prior_name value) s
  = (mkState (alter (fill_defaults defaults) p (heap s)) (model s), Ok tt).
Proof.
  revert s. induction defaults as [|[k v] defaults IH]; intros s Hp; simpl.
  - rewrite list_alter_id by reflexivity. destruct s; reflexivity.
  - rewrite (bind_ok _ _ _ _ _ (set_default_run _ _ _ _ Hp)).
    rewrite IH by (simpl; rewrite length_alter; exact Hp). simpl.
    rewrite list_alter_alter_eq. reflexivity.
Qed.

Lemma forallb_lt_spec (h : list dict) (cps : list ref) :
  forallb (fun r => (r <? length h)%nat) cps = true <->
  (forall r, r ∈ cps -> (r < length h)%nat).
Proof.
  rewrite forallb_forall. split; intros H r Hr.
  - apply Nat.ltb_lt, H. by apply list_elem_of_In.
  - apply Nat.ltb_lt, H. by apply list_elem_of_In.
Qed.

(* lines 59-62 *)
Lemma check_cps_run cps s :
  (forall r, r ∈ cps -> (r < length (heap s))%nat) ->
  for_each cps (fun change_point =>
    check_prior_names default_priors_change_points change_point) s
  = (s, match first_unknown_cp (heap s) cps with
        | None => Ok tt
        | Some k => Raise (RuntimeError (unknown_prior_msg k))
        end).
Proof.
  induction cps as [|r cps IH]; intros Hcps; simpl; [reflexivity|].
  unfold bind. rewrite check_prior_names_run by (apply Hcps; left).
  destruct (first_unknown _ _); [reflexivity|].
  apply IH. intros r' Hr'. apply Hcps. by right.
Qed.

(* one pass of the inner loop of lines 64-66 *)
Lemma set_default_cps_run k v cps s :
  (forall r, r ∈ cps -> (r < length (heap s))%nat) ->
  for_each cps (fun change_point => set_default change_point k v) s
  = (mkState (fold_left (fun h r => alter (set_default_dict k v) r h) cps (heap s))
             (model s), Ok tt).
Proof.
  revert s. induction cps as [|r cps IH]; intros s Hcps; simpl.
  - destruct s; reflexivity.
  - rewrite (bind_ok _ _ _ _ _ (set_default_run _ _ _ _ (Hcps r (list_elem_of_here _ _)))).
    rewrite IH; [reflexivity|]. simpl. intros r' Hr'. rewrite length_alter.
    apply Hcps. by right.
Qed.

Lemma length_alter_all {A} (f : A -> A) (rs : list nat) (h : list A) :
  length (fold_left (fun h r => alter f r h) rs h) = length h.
Proof.
  revert h. induction rs as [|r rs IH]; intros h; simpl; [reflexivity|].
  rewrite IH. apply length_alter.
Qed.

Lemma lookup_alter_all {A} (f : A -> A) (rs : list nat) (h : list A) (j : nat) :
  (forall x, f (f x) = f x) ->
  fold_left (fun h r => alter f r h) rs h !! j
  = if decide (j ∈ rs) then f <$> h !! j else h !! j.
Proof.
  intros Hf. revert h. induction rs as [|r rs IH]; intros h; simpl.
  - destruct (decide (j ∈ [])) as [Hin|]; [by apply not_elem_of_nil in Hin | reflexivity].
  - rewrite IH. destruct (decide (r = j)) as [->|Hne].
    + rewrite list_lookup_alter_eq.
      destruct (decide (j ∈ j :: rs)) as [_|Hn]; [|exfalso; apply Hn; left].
      destruct (decide (j ∈ rs)); [|reflexivity].
      destruct (h !! j); simpl; [by rewrite Hf | reflexivity].
    + rewrite list_lookup_alter_ne by exact Hne.
      destruct (decide (j ∈ rs)), (decide (j ∈ r :: rs)) as [Hin|Hn];
        try reflexivity.
      * exfalso. apply Hn. by right.
      * apply elem_of_cons in Hin as [->|?]; [congruence | contradiction].
Qed.

Lemma lookup_fill_refs (defaults : dict) (rs : list ref) (h : list dict) (j : ref) :
  fill_refs defaults rs h !! j
  = if decide (j ∈ rs) then fill_defaults defaults <$> h !! j else h !! j.
Proof. apply lookup_alter_all. intros d. apply fill_defaults_idem. Qed.

Lemma length_fill_refs defaults rs h : length (fill_refs defaults rs h) = length h.
Proof. apply length_alter_all. Qed.

Lemma set_default_dict_idem k v d :
  set_default_dict k v (set_default_dict k v d) = set_default_dict k v d.
Proof.
  apply set_default_dict_id. unfold set_default_dict.
  destruct (dict_mem k d) eqn:Hm; [exact Hm|].
  rewrite dict_mem_set, String.eqb_refl. reflexivity.
Qed.

(* lines 63-66 *)
Lemma fill_cps_run defaults cps s :
  (forall r, r ∈ cps -> (r < length (heap s))%nat) ->
  for_each defaults (fun '(prior_name, value) =>
    for_each cps (fun change_point => set_default change_point prior_name value)) s
  = (mkState (fill_refs defaults cps (heap s)) (model s), Ok tt).
Proof.
  revert s. induction defaults as [|[k v] defaults IH]; intros s Hcps; simpl.
  - replace (fill_refs [] cps (heap s)) with (heap s); [by destruct s|].
    apply list_eq. intros j. rewrite lookup_fill_refs.
    destruct (decide (j ∈ cps)); [|reflexivity]. by destruct (heap s !! j).
  - rewrite (bind_ok _ _ _ _ _ (set_default_cps_run _ _ _ _ Hcps)).
    rewrite IH by (simpl; intros r Hr; rewrite length_alter_all; by apply Hcps).
    simpl. do 2 f_equal. apply list_eq. intros j.
    rewrite !lookup_fill_refs, lookup_alter_all by apply set_default_dict_idem.
    destruct (decide (j ∈ cps)); [|reflexivity].
    by destruct (heap s !! j).
Qed.

Lemma validate_and_default_run h m cps p :
  refs_ok h cps p = true ->
  validate_and_default cps p (mkState h m)
  = (mkState (fst (validate_outcome h cps p)) m, snd (validate_outcome h cps p)).
Proof.
  unfold refs_ok. intros [Hp Hcps]%andb_true_iff.
  apply Nat.ltb_lt in Hp. rewrite forallb_lt_spec in Hcps.
  unfold validate_and_default, validate_outcome.
  pose proof (check_prior_names_run default_priors p (mkState h m) Hp) as H1.
  cbn [heap] in H1.
  destruct (first_unknown default_priors _).
  { by rewrite (bind_raise _ _ _ _ _ H1). }
  rewrite (bind_ok _ _ _ _ _ H1).
  rewrite (bind_ok _ _ _ _ _ (fill_priors_run default_priors p (mkState h m) Hp)).
  cbn [heap model].
  set (h1 := alter (fill_defaults default_priors) p h).
  assert (Hcps1 : forall r, r ∈ cps -> (r < length (heap (mkState h1 m)))%nat).
  { cbn [heap]. intros r Hr. unfold h1. rewrite length_alter. by apply Hcps. }
  pose proof (check_cps_run cps (mkState h1 m) Hcps1) as H2. cbn [heap] in H2.
  destruct (first_unknown_cp h1 cps).
  { by rewrite (bind_raise _ _ _ _ _ H2). }
  rewrite (bind_ok _ _ _ _ _ H2).
  by rewrite (fill_cps_run default_priors_change_points cps (mkState h1 m) Hcps1).
Qed.

(** ** A weakest-precondition calculus for the assembler's monad *)

Section WP.
Context {A B : Type}.

Lemma wp_ret (a : A) s Q : Q s (Ok a) -> wp (ret a) s Q.
Proof. intros HQ; exact HQ. Qed.

Lemma wp_raise e s (Q : state -> outcome A -> Prop) :
  Q s (Raise e) -> wp (raise e) s Q.
Proof. intros HQ; exact HQ. Qed.

Lemma wp_bind (c : M A) (k : A -> M B) s Q :
  wp c s (fun s' o => match o with
                      | Ok a => wp (k a) s' Q
                      | Raise e => Q s' (Raise e)
                      end) ->
  wp (bind c k) s Q.
Proof. unfold wp, bind. destruct (c s) as [s' [a|e]]; simpl; auto. Qed.

Lemma wp_mono (c : M A) s (Q Q' : state -> outcome A -> Prop) :
  wp c s Q -> (forall s' o, Q s' o -> Q' s' o) -> wp c s Q'.
Proof. unfold wp. auto. Qed.

End WP.

Lemma getitem_run r k s : getitem r k s = (s, read_item (heap s) r k).
Proof.
  unfold getitem, read_item, bind, load.
  destruct (heap s !! r) as [d|]; [|reflexivity].
  destruct (dict_get k d); reflexivity.
Qed.

Lemma wp_getitem r k s Q : Q s (read_item (heap s) r k) -> wp (getitem r k) s Q.
Proof. unfold wp. rewrite getitem_run. intros HQ; exact HQ. Qed.

Lemma wp_declare name d s Q :
  Q (mkState (heap s) (model s ++ [(name, d)])) (Ok (TVar name)) ->
  wp (declare name d) s Q.
Proof. intros HQ; exact HQ. Qed.

Lemma wp_np_log v s Q :
  Q s (match v with VNum q => Ok q | _ => Raise TypeError end) -> wp (np_log v) s Q.
Proof. unfold wp. destruct v; intros HQ; exact HQ. Qed.

Lemma read_item_raise h r k e :
  read_item h r k = Raise e -> is_runtime_error e = false.
Proof.
  unfold read_item. destruct (h !! r) as [d|]; [destruct (dict_get k d)|];
    intros [= <-]; reflexivity.
Qed.

(* the loop rule: [Inv j acc s] holds before the iteration of index [j] *)
Lemma wp_for_enumerate {A L} (Inv : nat -> L -> state -> Prop)
    (body : nat -> A -> L -> M L) (Q : state -> outcome L -> Prop) (l : list A) :
  forall i acc s,
  Inv i acc s ->
  (forall j x acc s, l !! j = Some x -> Inv (i + j)%nat acc s ->
     wp (body (i + j)%nat x acc) s
        (fun s' o => match o with
                     | Ok acc' => Inv (S (i + j)) acc' s'
                     | Raise e => Q s' (Raise e)
                     end)) ->
  (forall acc s, Inv (i + length l)%nat acc s -> Q s (Ok acc)) ->
  wp (for_enumerate i l body acc) s Q.
Proof.
  induction l as [|x l IH]; intros i acc s Hinv Hbody Hexit; simpl.
  - apply wp_ret, Hexit. simpl. by rewrite Nat.add_0_r.
  - apply wp_bind.
    pose proof (Hbody 0%nat x acc s eq_refl) as H0. rewrite Nat.add_0_r in H0.
    eapply wp_mono; [by apply H0|].
    intros s' [acc'|e] Ho; [|exact Ho].
    apply IH; [exact Ho | | ].
    + intros j y acc1 s1 Hj Hinv1.
      replace (S i + j)%nat with (i + S j)%nat in * by lia. by apply Hbody.
    + intros acc1 s1 Hinv1. apply Hexit. simpl.
      by replace (i + S (length l))%nat with (S i + length l)%nat by lia.
Qed.

(** ** The graph the assembler builds *)

Lemma fold_left_snoc {X Y} (f : X -> Y) (g : list Y -> X -> list Y) (l : list X)
    (acc : list Y) :
  (forall acc x, g acc x = acc ++ [f x]) ->
  fold_left g l acc = acc ++ map f l.
Proof.
  intros Hg. revert acc. induction l as [|x l IH]; intros acc; simpl.
  - by rewrite app_nil_r.
  - rewrite IH, Hg, <- app_assoc. reflexivity.
Qed.

Lemma zip_map_seq {X Y} (f : nat -> X) (g : nat -> Y) (l : list nat) :
  zip (map f l) (map g l) = map (fun i => (f i, g i)) l.
Proof. induction l as [|i l IH]; simpl; [reflexivity | by rewrite IH]. Qed.

Lemma build_lam_t_graph (n : nat) (num_days_sim : Z) :
  build_lam_t (map (fun i => TVar (transient_begin_name i)) (seq 0 n))
              (map (fun i => TVar (transient_len_name i)) (seq 0 n))
              (TVar "λ_0" :: map (fun i => TVar (lam_name (i + 1))) (seq 0 n))
              (TVar "λ_0") num_days_sim
  = lam_t_graph n num_days_sim.
Proof.
  unfold build_lam_t, lam_t_graph. f_equal. cbn [tl hd].
  rewrite !zip_map_seq.
  rewrite (fold_left_snoc
             (fun x : tensor * tensor * tensor =>
                TMul (TSmoothStep 0 1 (fst (fst x)) (TAdd (fst (fst x)) (snd (fst x)))
                                  num_days_sim)
                     (TSub (snd x) (TVar "λ_0"))))
    by (by intros acc [[a b] c]).
  rewrite map_map. reflexivity.
Qed.

(** ** What every run of [build_model] establishes *)

Lemma shape_post_raise h obs n T diff m e :
  is_runtime_error e = false -> shape_post h obs n T diff (mkState h m) (Raise e).
Proof. intros He. split; [reflexivity|]. intros Hr. congruence. Qed.

Lemma shape_post_ordering h obs n T diff m :
  shape_post h obs n T diff (mkState h m) (Raise (RuntimeError ordering_msg)).
Proof. split; reflexivity. Qed.

Lemma wp_unordered date_before v s (Q : state -> outcome bool -> Prop) :
  (forall b, Q s (Ok b)) -> Q s (Raise TypeError) ->
  wp (match date_before with
      | VNone => ret false
      | _ => py_gt date_before v
      end) s Q.
Proof. intros Hb He. destruct date_before, v; first [apply Hb | apply He]. Qed.

Lemma wp_date_minus_days v b s Q :
  Q s (match v with VDate x => Ok (days_between x b) | _ => Raise TypeError end) ->
  wp (date_minus_days v b) s Q.
Proof. unfold wp. destruct v; intros HQ; exact HQ. Qed.

Ltac wp_read :=
  apply wp_bind, wp_getitem; cbn [heap];
  match goal with
  | |- context [read_item ?h ?r ?k] =>
      let E := fresh "E" in
      destruct (read_item h r k) as [?v|?e] eqn:E;
      [clear E | by apply shape_post_raise, (read_item_raise _ _ _ _ E)]
  end.

Ltac wp_log :=
  apply wp_bind, wp_np_log;
  match goal with
  | |- context [match ?v with VNum _ => _ | _ => _ end] =>
      destruct v; [| by apply shape_post_raise | by apply shape_post_raise]
  end.

Ltac wp_decl := apply wp_bind, wp_declare; cbn [heap model].

Lemma build_model_shape obs cps d0 T diff p h m0 :
  wp (build_model obs cps d0 T diff p) (mkState h m0)
     (shape_post h obs (length cps) T diff).
Proof.
  unfold build_model.
  apply wp_bind. unfold wp at 1. cbn [new_model fst snd heap model].
  wp_read. wp_decl. wp_read. wp_log. wp_read. wp_decl.
  apply wp_bind.
  apply (wp_for_enumerate (fun j acc s =>
           heap s = h /\
           acc = TVar "λ_0" :: map (fun i => TVar (lam_name (i + 1))) (seq 0 j) /\
           map fst (model s)
           = ["I_begin"; "λ_0"] ++ map (fun i => lam_name (i + 1)) (seq 0 j))).
  { repeat split; reflexivity. }
  { intros j x acc s _ (Hh & -> & Hm). destruct s as [h' m']; cbn [heap model] in *.
    subst h'. cbn beta.
    wp_read. wp_log. wp_read. wp_decl. apply wp_ret.
    cbn [heap model]. rewrite seq_S, !map_app, Hm. cbn [map fst app]. repeat split; reflexivity. }
  intros lam_list [h' m1] (Hh & -> & Hm1). cbn [heap model] in *. subst h'.
  rewrite Nat.add_0_l in *.
  apply wp_bind.
  apply (wp_for_enumerate (fun j acc s =>
           heap s = h /\
           fst acc = map (fun i => TVar (transient_begin_name i)) (seq 0 j) /\
           map fst (model s)
           = map fst m1 ++ map transient_begin_name (seq 0 j))).
  { cbn [heap model fst seq map]. rewrite app_nil_r. repeat split; reflexivity. }
  { intros j x [tbl date_before] [h' m'] _ (Hh & Hacc & Hm).
    cbn [heap model fst] in *. subst h' tbl. cbn beta iota.
    wp_read. apply wp_bind, wp_unordered; [|by apply shape_post_raise].
    intros [|]; [apply wp_raise, shape_post_ordering|].
    apply wp_bind, wp_date_minus_days.
    destruct v1; [by apply shape_post_raise | by apply shape_post_raise |].
    wp_read. wp_decl. apply wp_ret.
    cbn [heap model fst]. rewrite seq_S, !map_app, Hm, <- app_assoc. repeat split; reflexivity. }
  intros [transient_begin_list date_last] [h' m2] (Hh & Hacc & Hm2).
  cbn [heap model fst] in *. subst h' transient_begin_list.
  rewrite Nat.add_0_l in *.
  apply wp_bind.
  apply (wp_for_enumerate (fun j acc s =>
           heap s = h /\
           acc = map (fun i => TVar (transient_len_name i)) (seq 0 j) /\
           map fst (model s)
           = map fst m2 ++ map transient_len_name (seq 0 j))).
  { cbn [heap model fst seq map]. rewrite app_nil_r. repeat split; reflexivity. }
  { intros j x acc [h' m'] _ (Hh & -> & Hm).
    cbn [heap model] in *. subst h'. cbn beta.
    wp_read. wp_log. wp_read. wp_decl. apply wp_ret.
    cbn [heap model]. rewrite seq_S, !map_app, Hm, <- app_assoc. repeat split; reflexivity. }
  intros transient_len_list [h' m3] (Hh & -> & Hm3).
  cbn [heap model] in *. subst h'. rewrite Nat.add_0_l in *.
  rewrite build_lam_t_graph.
  wp_read. wp_log. wp_read. wp_decl. wp_read. wp_log. wp_read. wp_decl.
  wp_read. wp_decl. wp_decl. wp_decl. wp_decl.
  unfold wp, get_model. cbn [fst snd heap model].
  split; [reflexivity|]. split; [reflexivity|]. split.
  - rewrite !map_app, Hm3, Hm2, Hm1. unfold expected_names.
    rewrite <- !app_assoc. reflexivity.
  - eexists (((m3 ++ [_]) ++ [_]) ++ [_]). rewrite <- !app_assoc. reflexivity.
Qed.

(** ** The call, phase by phase *)

Lemma check_horizon_run obs T diff p s :
  check_horizon obs T diff p s = (s, horizon_outcome (heap s) obs T diff p).
Proof.
  unfold check_horizon, horizon_outcome, bind. rewrite !getitem_run.
  destruct (read_item (heap s) p "prior_median_delay") as [a|e]; [|reflexivity].
  destruct a as [a| |z]; try reflexivity. cbn.
  rewrite getitem_run.
  destruct (read_item (heap s) p "prior_sigma_delay") as [c|e]; [|reflexivity].
  destruct c as [c| |z]; try reflexivity. cbn.
  destruct (Qltb _ _); [reflexivity|].
  destruct (_ <? _)%Z; reflexivity.
Qed.

Lemma call_run h obs cps d0 T diff priors :
  refs_ok (entry_heap h priors) cps (entry_ref h priors) = true ->
  call h obs cps d0 T diff priors
  = let h0 := entry_heap h priors in
    let p := entry_ref h priors in
    match validate_outcome h0 cps p with
    | (h1, Raise e) => (mkState h1 [], Raise e)
    | (h1, Ok _) =>
        match horizon_outcome h1 obs T diff p with
        | Raise e => (mkState h1 [], Raise e)
        | Ok _ => build_model obs cps d0 T diff p (mkState h1 [])
        end
    end.
Proof.
  intros Hrefs. unfold call, SIR_model_with_change_points.
  assert (Hentry : (match priors with None => alloc [] | Some r => ret r end)
                     (mkState h [])
                   = (mkState (entry_heap h priors) [], Ok (entry_ref h priors))).
  { destruct priors; reflexivity. }
  rewrite (bind_ok _ _ _ _ _ Hentry). cbn zeta.
  pose proof (validate_and_default_run _ [] _ _ Hrefs) as Hv.
  destruct (validate_outcome _ cps _) as [h1 [[]|e]]; cbn [fst snd] in Hv.
  - rewrite (bind_ok _ _ _ _ _ Hv).
    pose proof (check_horizon_run obs T diff (entry_ref h priors) (mkState h1 [])) as Hh.
    cbn [heap] in Hh. destruct (horizon_outcome _ _ _ _ _) as [[]|e].
    + by rewrite (bind_ok _ _ _ _ _ Hh).
    + by rewrite (bind_raise _ _ _ _ _ Hh).
  - by rewrite (bind_raise _ _ _ _ _ Hv).
Qed.

Lemma first_unknown_cp_none (h : list dict) (cps : list ref) :
  first_unknown_cp h cps = None <->
  forallb (fun r => all_known default_priors_change_points (dict_at h r)) cps = true.
Proof.
  induction cps as [|r cps IH]; simpl; [tauto|].
  destruct (first_unknown _ (dict_keys (dict_at h r))) eqn:Hf.
  - assert (all_known default_priors_change_points (dict_at h r) <> true) as Hn.
    { rewrite <- first_unknown_none, Hf. discriminate. }
    destruct (all_known _ (dict_at h r)); [congruence|]. simpl. split; discriminate.
  - apply first_unknown_none in Hf. rewrite Hf. simpl. exact IH.
Qed.

Lemma dict_at_alter_ne (f : dict -> dict) (h : list dict) (p r : ref) :
  p <> r -> dict_at (alter f p h) r = dict_at h r.
Proof. intros Hne. unfold dict_at. by rewrite list_lookup_alter_ne. Qed.

Lemma dict_at_alter_eq (f : dict -> dict) (h : list dict) (p : ref) :
  (p < length h)%nat -> dict_at (alter f p h) p = f (dict_at h p).
Proof.
  intros Hp. unfold dict_at. rewrite list_lookup_alter_eq.
  destruct (lookup_lt_is_Some_2 h p Hp) as [d ->]. reflexivity.
Qed.

(* a priors dictionary that received its defaults is no change-point dictionary *)
Lemma filled_priors_not_cp d :
  all_known default_priors_change_points (fill_defaults default_priors d) = false.
Proof.
  apply not_true_is_false. rewrite all_known_spec. intros H.
  specialize (H "prior_beta_I_begin"). rewrite dict_keys_fill in H.
  discriminate H. right. simpl. tauto.
Qed.

Lemma forallb_cps_alter (g : dict -> bool) (f : dict -> dict) (h : list dict)
    (cps : list ref) (p : ref) :
  p ∉ cps ->
  forallb (fun r => g (dict_at (alter f p h) r)) cps
  = forallb (fun r => g (dict_at h r)) cps.
Proof.
  induction cps as [|r cps IH]; intros Hp; simpl; [reflexivity|].
  apply not_elem_of_cons in Hp as [Hne Hp].
  rewrite dict_at_alter_ne by exact Hne. by rewrite IH.
Qed.

Lemma validate_outcome_ok h cps p :
  refs_ok h cps p = true ->
  config_ok h cps p = true ->
  validate_outcome h cps p = (defaulted h cps p, Ok tt).
Proof.
  unfold config_ok, validate_outcome. intros _ [[Hp Hne]%andb_true_iff Hc]%andb_true_iff.
  apply first_unknown_none in Hp. rewrite Hp.
  apply negb_true_iff, bool_decide_eq_false in Hne.
  rewrite <- (forallb_cps_alter _ (fill_defaults default_priors) _ _ _ Hne) in Hc.
  apply first_unknown_cp_none in Hc. rewrite Hc. reflexivity.
Qed.

Lemma validate_outcome_raise h cps p :
  refs_ok h cps p = true ->
  config_ok h cps p = false ->
  exists h1 k, validate_outcome h cps p = (h1, Raise (RuntimeError (unknown_prior_msg k)))
            /\ length h1 = length h.
Proof.
  unfold config_ok, validate_outcome, refs_ok.
  intros [Hlt _]%andb_true_iff Hc. apply Nat.ltb_lt in Hlt.
  destruct (first_unknown default_priors _) as [k|] eqn:Hp; [by eauto|].
  apply first_unknown_none in Hp. rewrite Hp in Hc. simpl in Hc.
  destruct (first_unknown_cp _ cps) as [k|] eqn:Hcp.
  { eexists _, k. split; [reflexivity|]. apply length_alter. }
  exfalso. apply first_unknown_cp_none in Hcp.
  destruct (decide (p ∈ cps)) as [Hin|Hnin].
  - rewrite forallb_forall in Hcp. apply list_elem_of_In, Hcp in Hin.
    rewrite dict_at_alter_eq, filled_priors_not_cp in Hin by exact Hlt. discriminate.
  - rewrite forallb_cps_alter in Hcp by exact Hnin. rewrite Hcp in Hc.
    rewrite bool_decide_eq_false_2 in Hc by exact Hnin. discriminate.
Qed.

(** ** The outcome of [build_model] when every read succeeds *)

Lemma py_gt_run a b s : py_gt a b s = (s, gt_outcome a b).
Proof. destruct a, b; reflexivity. Qed.

Lemma wp_lognormal_loop (K1 K2 : string) (name : nat -> string) (h : list dict)
    (cps : list ref) :
  forall i acc m (Q : state -> outcome (list tensor) -> Prop),
  (forall r, r ∈ cps ->
     exists v1 v2, read_item h r K1 = Ok v1 /\ read_item h r K2 = Ok v2) ->
  (if forallb (fun r => is_num (read_item h r K1)) cps
   then forall acc' m', Q (mkState h m') (Ok acc')
   else forall m', Q (mkState h m') (Raise TypeError)) ->
  wp (for_enumerate i cps
        (fun i change_point acc =>
           median <- getitem change_point K1 ;;
           mu <- np_log median ;;
           sigma <- getitem change_point K2 ;;
           x <- declare (name i) (Lognormal mu sigma) ;;
           ret (acc ++ [x]))
        acc) (mkState h m) Q.
Proof.
  induction cps as [|r cps IH]; intros i acc m Q Hreads HQ.
  - apply wp_ret, HQ.
  - cbn [for_enumerate]. apply wp_bind.
    destruct (Hreads r (list_elem_of_here _ _)) as (v1 & v2 & E1 & E2).
    apply wp_bind, wp_getitem. cbn [heap]. rewrite E1.
    cbn [forallb] in HQ. rewrite E1 in HQ.
    apply wp_bind, wp_np_log.
    destruct v1 as [q| |z]; cbn [is_num andb] in HQ; [|apply HQ|apply HQ].
    apply wp_bind, wp_getitem. cbn [heap]. rewrite E2.
    apply wp_bind, wp_declare. cbn [heap model]. apply wp_ret.
    apply IH; [|exact HQ]. intros r' Hr'. apply Hreads. by right.
Qed.

Lemma wp_date_loop (d0 : Z) (h : list dict) (cps : list ref) :
  forall i tbl date_before m (Q : state -> outcome (list tensor * pyval) -> Prop),
  (forall r, r ∈ cps ->
     exists v1 v2, read_item h r date_key = Ok v1
                /\ read_item h r "prior_sigma_date_begin_transient" = Ok v2) ->
  match date_scan date_before (map (item h date_key) cps) with
  | Ok _ => forall acc' m', Q (mkState h m') (Ok acc')
  | Raise e => forall m', Q (mkState h m') (Raise e)
  end ->
  wp (for_enumerate i cps
        (fun i change_point '(transient_begin_list, date_before) =>
           date_begin_transient <- getitem change_point "prior_mean_date_begin_transient" ;;
           unordered <- match date_before with
                        | VNone => ret false
                        | _ => py_gt date_before date_begin_transient
                        end ;;
           if (unordered : bool) then raise (RuntimeError ordering_msg) else
           prior_day_begin_transient <- date_minus_days date_begin_transient d0 ;;
           sigma <- getitem change_point "prior_sigma_date_begin_transient" ;;
           transient_begin <- declare ("transient_begin_" ++ format_nat i)%string
                                      (Normal prior_day_begin_transient sigma) ;;
           ret (transient_begin_list ++ [transient_begin], date_begin_transient))
        (tbl, date_before)) (mkState h m) Q.
Proof.
  induction cps as [|r cps IH]; intros i tbl date_before m Q Hreads HQ.
  - apply wp_ret, HQ.
  - cbn [for_enumerate]. apply wp_bind.
    destruct (Hreads r (list_elem_of_here _ _)) as (v1 & v2 & E1 & E2).
    apply wp_bind, wp_getitem. cbn [heap]. unfold date_key in E1. rewrite E1.
    assert (Hitem : item h date_key r = v1) by (unfold item, date_key; by rewrite E1).
    cbn [map date_scan] in HQ. rewrite Hitem in HQ.
    apply wp_bind.
    match type of HQ with
    | match match ?x with Ok _ => _ | Raise _ => _ end with _ => _ end =>
        set (c := x) in HQ
    | match ?x with Ok _ => _ | Raise _ => _ end => set (c := x) in HQ
    end.
    assert (Hcmp : (match date_before with
                    | VNone => ret false
                    | _ => py_gt date_before v1
                    end) (mkState h m) = (mkState h m, c)).
    { subst c. destruct date_before; try reflexivity; apply py_gt_run. }
    unfold wp at 1. rewrite Hcmp. cbn [fst snd]. clearbody c.
    destruct c as [[|]|e]; cbn beta iota; [apply wp_raise, HQ| |apply HQ].
    apply wp_bind, wp_date_minus_days.
    destruct v1 as [q| |z]; [apply HQ|apply HQ|].
    apply wp_bind, wp_getitem. cbn [heap]. rewrite E2.
    apply wp_bind, wp_declare. cbn [heap model]. apply wp_ret.
    apply IH; [|exact HQ]. intros r' Hr'. apply Hreads. by right.
Qed.

Tactic Notation "wp_read_ok" constr(H) "as" ident(v) :=
  apply wp_bind, wp_getitem; cbn [heap];
  match goal with
  | |- context [read_item ?h ?r ?k] =>
      let E := fresh "E" in
      destruct (H k eq_refl) as [v E]; rewrite E; clear E
  end.

Lemma build_model_result obs cps d0 T diff p h m0 :
  reads_ok h cps p ->
  wp (build_model obs cps d0 T diff p) (mkState h m0) (result_post h cps p).
Proof.
  intros [Hp Hcps]. unfold build_model, result_post, build_result.
  assert (Hpair : forall K1 K2,
            dict_mem K1 default_priors_change_points = true ->
            dict_mem K2 default_priors_change_points = true ->
            forall r, r ∈ cps ->
            exists v1 v2, read_item h r K1 = Ok v1 /\ read_item h r K2 = Ok v2).
  { intros K1 K2 H1 H2 r Hr. destruct (Hcps r K1 Hr H1) as [v1 E1].
    destruct (Hcps r K2 Hr H2) as [v2 E2]. eauto. }
  apply wp_bind. unfold wp at 1. cbn [new_model fst snd heap model].
  wp_read_ok Hp as beta. apply wp_bind, wp_declare; cbn [heap model].
  wp_read_ok Hp as median0. apply wp_bind, wp_np_log.
  destruct median0 as [q0| |z0]; cbn [is_num negb]; [|reflexivity|reflexivity].
  wp_read_ok Hp as sigma0. apply wp_bind, wp_declare; cbn [heap model].
  apply wp_bind.
  apply (wp_lognormal_loop "prior_median_λ" "prior_sigma_λ" (fun i => lam_name (i + 1)));
    [by apply Hpair|].
  destruct (forallb _ cps); cbn [negb]; [|reflexivity].
  intros lam_list m1. apply wp_bind.
  apply wp_date_loop; [by apply Hpair|].
  destruct (date_scan _ _) as [[]|e]; [|reflexivity].
  intros begins m2. apply wp_bind.
  apply (wp_lognormal_loop "prior_median_transient_len" "prior_sigma_transient_len"
                           transient_len_name); [by apply Hpair|].
  destruct (forallb _ cps); cbn [negb]; [|reflexivity].
  intros transient_len_list m3.
  wp_read_ok Hp as median_mu. apply wp_bind, wp_np_log.
  destruct median_mu as [q2| |z2]; cbn [is_num negb]; [|reflexivity|reflexivity].
  wp_read_ok Hp as sigma_mu. apply wp_bind, wp_declare; cbn [heap model].
  wp_read_ok Hp as median_delay. apply wp_bind, wp_np_log.
  destruct median_delay as [q3| |z3]; cbn [is_num negb]; [|reflexivity|reflexivity].
  wp_read_ok Hp as sigma_delay. apply wp_bind, wp_declare; cbn [heap model].
  wp_read_ok Hp as beta_obs. apply wp_bind, wp_declare; cbn [heap model].
  apply wp_bind, wp_declare; cbn [heap model].
  apply wp_bind, wp_declare; cbn [heap model].
  apply wp_bind, wp_declare; cbn [heap model].
  unfold wp, get_model. cbn [fst snd]. eauto.
Qed.

(** ** Reading the defaulted heap *)

Lemma lookup_defaulted_priors (h : list dict) (cps : list ref) (p : ref) :
  (p < length h)%nat -> p ∉ cps ->
  defaulted h cps p !! p = Some (fill_defaults default_priors (dict_at h p)).
Proof.
  intros Hp Hnin. unfold defaulted. rewrite lookup_fill_refs.
  destruct (decide (p ∈ cps)); [contradiction|].
  rewrite list_lookup_alter_eq, (lookup_dict_at h p Hp). reflexivity.
Qed.

Lemma lookup_defaulted_cp (h : list dict) (cps : list ref) (p r : ref) :
  (r < length h)%nat -> r ∈ cps -> p ∉ cps ->
  defaulted h cps p !! r
  = Some (fill_defaults default_priors_change_points (dict_at h r)).
Proof.
  intros Hr Hin Hnin. unfold defaulted. rewrite lookup_fill_refs.
  destruct (decide (r ∈ cps)); [|contradiction].
  rewrite list_lookup_alter_ne by (intros ->; contradiction).
  rewrite (lookup_dict_at h r Hr). reflexivity.
Qed.

Lemma lookup_defaulted_other (h : list dict) (cps : list ref) (p r : ref) :
  r ∉ cps -> r <> p -> defaulted h cps p !! r = h !! r.
Proof.
  intros Hnin Hne. unfold defaulted. rewrite lookup_fill_refs.
  destruct (decide (r ∈ cps)); [contradiction|].
  by rewrite list_lookup_alter_ne.
Qed.

Lemma length_defaulted h cps p : length (defaulted h cps p) = length h.
Proof. unfold defaulted. by rewrite length_fill_refs, length_alter. Qed.

Lemma read_defaulted_priors (h : list dict) (cps : list ref) (p : ref) (k : string) :
  (p < length h)%nat -> p ∉ cps ->
  read_item (defaulted h cps p) p k
  = outcome_of_option k (lookup_default default_priors (dict_at h p) k).
Proof.
  intros Hp Hnin. unfold read_item.
  by rewrite lookup_defaulted_priors, dict_get_fill.
Qed.

Lemma read_defaulted_cp (h : list dict) (cps : list ref) (p r : ref) (k : string) :
  (r < length h)%nat -> r ∈ cps -> p ∉ cps ->
  read_item (defaulted h cps p) r k
  = outcome_of_option k (lookup_default default_priors_change_points (dict_at h r) k).
Proof.
  intros Hr Hin Hnin. unfold read_item.
  by rewrite lookup_defaulted_cp, dict_get_fill.
Qed.

Lemma lookup_default_some defaults d k :
  dict_mem k defaults = true -> exists v, lookup_default defaults d k = Some v.
Proof.
  unfold lookup_default, dict_mem. intros Hk.
  destruct (dict_get k d); [eauto|]. destruct (dict_get k defaults); [eauto|discriminate].
Qed.

Lemma refs_ok_spec (h : list dict) (cps : list ref) (p : ref) :
  refs_ok h cps p = true <->
  (p < length h)%nat /\ (forall r, r ∈ cps -> (r < length h)%nat).
Proof.
  unfold refs_ok. rewrite andb_true_iff, Nat.ltb_lt, forallb_lt_spec. tauto.
Qed.

Lemma config_ok_not_aliased h cps p : config_ok h cps p = true -> p ∉ cps.
Proof.
  unfold config_ok. intros [[_ Hne]%andb_true_iff _]%andb_true_iff.
  by apply negb_true_iff, bool_decide_eq_false in Hne.
Qed.

Lemma reads_ok_defaulted h cps p :
  refs_ok h cps p = true -> config_ok h cps p = true ->
  reads_ok (defaulted h cps p) cps p.
Proof.
  intros [Hp Hcps]%refs_ok_spec Hnin%config_ok_not_aliased. split.
  - intros k Hk. rewrite read_defaulted_priors by assumption.
    destruct (lookup_default_some default_priors (dict_at h p) k Hk) as [v ->]. eauto.
  - intros r k Hr Hk. rewrite read_defaulted_cp by auto.
    destruct (lookup_default_some default_priors_change_points (dict_at h r) k Hk)
      as [v ->]. eauto.
Qed.

(** ** The three ways a call can end *)

Lemma horizon_outcome_defaulted h cps p obs T diff :
  refs_ok h cps p = true -> config_ok h cps p = true ->
  horizon_outcome (defaulted h cps p) obs T diff p
  = match delay_prior (dict_at h p) with
    | None => Raise TypeError
    | Some (a, c) =>
        if Qltb (inject_Z diff) (lead_time_bound a c)
        then Raise (RuntimeError lead_time_msg)
        else if (T <? Z.of_nat (length obs) + diff)%Z
        then Raise (RuntimeError horizon_msg)
        else Ok tt
    end.
Proof.
  intros [Hp Hcps]%refs_ok_spec Hnin%config_ok_not_aliased.
  unfold horizon_outcome, delay_prior. rewrite !read_defaulted_priors by assumption.
  destruct (lookup_default_some default_priors (dict_at h p) "prior_median_delay" eq_refl)
    as [a ->].
  destruct (lookup_default_some default_priors (dict_at h p) "prior_sigma_delay" eq_refl)
    as [c ->].
  cbn [outcome_of_option]. destruct a as [a| |za]; cbn [number_of]; try reflexivity.
  destruct c as [c| |zc]; reflexivity.
Qed.

Lemma call_config_ok h obs cps d0 T diff priors :
  let h0 := entry_heap h priors in
  let p := entry_ref h priors in
  refs_ok h0 cps p = true -> config_ok h0 cps p = true ->
  call h obs cps d0 T diff priors
  = match horizon_outcome (defaulted h0 cps p) obs T diff p with
    | Raise e => (mkState (defaulted h0 cps p) [], Raise e)
    | Ok _ => build_model obs cps d0 T diff p (mkState (defaulted h0 cps p) [])
    end.
Proof.
  intros h0 p Hrefs Hcfg. rewrite call_run by exact Hrefs. cbn zeta.
  fold h0 p. by rewrite validate_outcome_ok.
Qed.

Lemma call_config_bad h obs cps d0 T diff priors :
  let h0 := entry_heap h priors in
  let p := entry_ref h priors in
  refs_ok h0 cps p = true -> config_ok h0 cps p = false ->
  exists h1 k,
    call h obs cps d0 T diff priors
    = (mkState h1 [], Raise (RuntimeError (unknown_prior_msg k))).
Proof.
  intros h0 p Hrefs Hcfg. rewrite call_run by exact Hrefs. cbn zeta. fold h0 p.
  destruct (validate_outcome_raise h0 cps p Hrefs Hcfg) as (h1 & k & -> & _). eauto.
Qed.

Lemma unknown_prior_msg_fresh k :
  unknown_prior_msg k <> lead_time_msg /\ unknown_prior_msg k <> horizon_msg
  /\ unknown_prior_msg k <> ordering_msg.
Proof. repeat split; discriminate. Qed.

Lemma build_model_heap obs cps d0 T diff p h m0 :
  heap (fst (build_model obs cps d0 T diff p (mkState h m0))) = h.
Proof. by destruct (build_model_shape obs cps d0 T diff p h m0) as [? _]. Qed.

Lemma build_model_runtime_error obs cps d0 T diff p h m0 msg :
  snd (build_model obs cps d0 T diff p (mkState h m0)) = Raise (RuntimeError msg) ->
  msg = ordering_msg.
Proof.
  intros H. destruct (build_model_shape obs cps d0 T diff p h m0) as [_ Hs].
  rewrite H in Hs. specialize (Hs eq_refl). congruence.
Qed.

Lemma horizon_runtime_error h obs T diff p msg :
  horizon_outcome h obs T diff p = Raise (RuntimeError msg) ->
  msg = lead_time_msg \/ msg = horizon_msg.
Proof.
  unfold horizon_outcome.
  destruct (read_item h p "prior_median_delay") as [a|e] eqn:Ea.
  2:{ intros [= ->]. apply read_item_raise in Ea. discriminate. }
  destruct a as [a| |za]; cbn [number_of]; try discriminate.
  destruct (read_item h p "prior_sigma_delay") as [c|e] eqn:Ec.
  2:{ intros [= ->]. apply read_item_raise in Ec. discriminate. }
  destruct c as [c| |zc]; cbn [number_of]; try discriminate.
  destruct (Qltb _ _); [intros [= <-]; by left|].
  destruct (_ <? _)%Z; [intros [= <-]; by right | discriminate].
Qed.

(** ** Configuration and horizon errors *)

Lemma config_ok_split h cps p :
  config_ok h cps p = keys_recognised h cps p && negb (bool_decide (p ∈ cps)).
Proof.
  unfold config_ok, keys_recognised.
  destruct (all_known _ _), (bool_decide _), (forallb _ _); reflexivity.
Qed.

Lemma call_heap_config_ok h obs cps d0 T diff priors :
  let h0 := entry_heap h priors in
  let p := entry_ref h priors in
  refs_ok h0 cps p = true -> config_ok h0 cps p = true ->
  heap (fst (call h obs cps d0 T diff priors)) = defaulted h0 cps p.
Proof.
  intros h0 p Hrefs Hcfg. rewrite call_config_ok by assumption. fold h0 p.
  destruct (horizon_outcome _ _ _ _ _); [apply build_model_heap | reflexivity].
Qed.

Lemma call_no_unknown_error h obs cps d0 T diff priors k :
  let h0 := entry_heap h priors in
  let p := entry_ref h priors in
  refs_ok h0 cps p = true -> config_ok h0 cps p = true ->
  snd (call h obs cps d0 T diff priors) <> Raise (RuntimeError (unknown_prior_msg k)).
Proof.
  intros h0 p Hrefs Hcfg. rewrite call_config_ok by assumption. fold h0 p.
  destruct (unknown_prior_msg_fresh k) as (Hl & Hh & Ho).
  destruct (horizon_outcome _ _ _ _ _) as [[]|e] eqn:He.
  - intros Hb. apply build_model_runtime_error in Hb. contradiction.
  - cbn [snd]. intros [= ->]. apply horizon_runtime_error in He as [?|?]; contradiction.
Qed.

(** C4 (as stated, refuted): a dictionary with no key at all, passed both as
    the priors and as a change point, holds only recognised keys, and the call
    still ends in the unknown-option error: line 57 has put the priors
    defaults into it before line 61 checks it as a change point. *)
Lemma recognised_keys_rejected_when_aliased :
  keys_recognised [[]] [0%nat] 0%nat = true /\
  snd (call [[]] [] [0%nat] 0 20 13 (Some 0%nat))
  = Raise (RuntimeError (unknown_prior_msg "prior_beta_I_begin")).
Proof. split; reflexivity. Qed.

(** C4 (amended): a key outside the recognised option names, in the priors
    dictionary or in a change point, ends the call in the unknown-option error
    with no variable declared; with only recognised keys, and the priors
    dictionary not itself one of the change points, that error is not raised
    and every recognised key holds the supplied value or else its default. *)
Theorem unknown_option_validation h obs cps d0 T diff priors :
  let h0 := entry_heap h priors in
  let p := entry_ref h priors in
  let res := call h obs cps d0 T diff priors in
  refs_ok h0 cps p = true ->
  (keys_recognised h0 cps p = false ->
   exists k, snd res = Raise (RuntimeError (unknown_prior_msg k))
             /\ model (fst res) = [])
  /\ (keys_recognised h0 cps p = true -> p ∉ cps ->
      (forall k, snd res <> Raise (RuntimeError (unknown_prior_msg k)))
      /\ (forall k v, dict_get k default_priors = Some v ->
            dict_get k (dict_at (heap (fst res)) p)
            = Some (default v (dict_get k (dict_at h0 p))))
      /\ (forall r k v, r ∈ cps ->
            dict_get k default_priors_change_points = Some v ->
            dict_get k (dict_at (heap (fst res)) r)
            = Some (default v (dict_get k (dict_at h0 r))))).
Proof.
  intros h0 p res Hrefs. split.
  - intros Hk.
    assert (Hcfg : config_ok h0 cps p = false) by (by rewrite config_ok_split, Hk).
    destruct (call_config_bad h obs cps d0 T diff priors Hrefs Hcfg) as (h1 & k & Hc).
    exists k. subst res. by rewrite Hc.
  - intros Hk Hnin.
    assert (Hcfg : config_ok h0 cps p = true).
    { rewrite config_ok_split, Hk. by rewrite bool_decide_eq_false_2. }
    pose proof (call_heap_config_ok h obs cps d0 T diff priors Hrefs Hcfg) as Hheap.
    fold h0 p res in Hheap. apply refs_ok_spec in Hrefs as Hlt. destruct Hlt as [Hp Hcps].
    split; [|split].
    + intros k. by apply call_no_unknown_error.
    + intros k v Hv. rewrite Hheap.
      rewrite (dict_at_lookup _ _ _ (lookup_defaulted_priors h0 cps p Hp Hnin)).
      rewrite dict_get_fill. unfold lookup_default. rewrite Hv.
      by destruct (dict_get k (dict_at h0 p)).
    + intros r k v Hr Hv. rewrite Hheap.
      rewrite (dict_at_lookup _ _ _ (lookup_defaulted_cp h0 cps p r (Hcps r Hr) Hr Hnin)).
      rewrite dict_get_fill. unfold lookup_default. rewrite Hv.
      by destruct (dict_get k (dict_at h0 r)).
Qed.

Lemma unknown_option_validation_witness :
  (exists k,
     snd (call [[("not_a_real_prior", VNum 1)]] [] [] 0 20 13 (Some 0%nat))
     = Raise (RuntimeError (unknown_prior_msg k))
     /\ model (fst (call [[("not_a_real_prior", VNum 1)]] [] [] 0 20 13 (Some 0%nat)))
        = [])
  /\ (forall k,
        snd (call [[]; [(date_key, VDate 0)]] [] [1%nat] 0 20 13 (Some 0%nat))
        <> Raise (RuntimeError (unknown_prior_msg k))).
Proof.
  split.
  - apply (proj1 (unknown_option_validation
                    [[("not_a_real_prior", VNum 1)]] [] [] 0 20 13 (Some 0%nat) eq_refl)).
    reflexivity.
  - apply (proj2 (unknown_option_validation
                    [[]; [(date_key, VDate 0)]] [] [1%nat] 0 20 13 (Some 0%nat) eq_refl)).
    + reflexivity.
    + apply (bool_decide_eq_false_1 (0%nat ∈ [1%nat])). reflexivity.
Defined.

Lemma Qltb_lt a b : Qltb a b = true <-> (a < b)%Q.
Proof.
  unfold Qltb. rewrite negb_true_iff, <- not_true_iff_false, Qle_bool_iff.
  split; [apply Qnot_le_lt | apply Qlt_not_le].
Qed.

(** C9: when the supplied keys pass lines 52-62, the defaults are written
    into the caller's own dictionaries before line 68 is reached, and they are
    still there in the heap the call leaves behind, whichever way it ends:
    with a model, or with an error of the horizon checks or of the build. *)
Theorem defaults_written_in_place h obs cps d0 T diff priors :
  let h0 := entry_heap h priors in
  let p := entry_ref h priors in
  let res := call h obs cps d0 T diff priors in
  refs_ok h0 cps p = true ->
  config_ok h0 cps p = true ->
  validate_and_default cps p (mkState h0 []) = (mkState (defaulted h0 cps p) [], Ok tt)
  /\ heap (fst res) = defaulted h0 cps p
  /\ dict_at (heap (fst res)) p = fill_defaults default_priors (dict_at h0 p)
  /\ (forall r, r ∈ cps ->
        dict_at (heap (fst res)) r
        = fill_defaults default_priors_change_points (dict_at h0 r))
  /\ (forall r, r ∉ cps -> r <> p -> heap (fst res) !! r = h0 !! r).
Proof.
  intros h0 p res Hrefs Hcfg.
  pose proof (call_heap_config_ok h obs cps d0 T diff priors Hrefs Hcfg) as Hheap.
  fold h0 p res in Hheap. rewrite Hheap.
  pose proof (config_ok_not_aliased _ _ _ Hcfg) as Hnin.
  apply refs_ok_spec in Hrefs as Hlt. destruct Hlt as [Hp Hcps].
  split; [|split; [|split; [|split]]].
  - rewrite validate_and_default_run by exact Hrefs.
    by rewrite validate_outcome_ok.
  - reflexivity.
  - apply dict_at_lookup. by apply lookup_defaulted_priors.
  - intros r Hr. apply dict_at_lookup. apply lookup_defaulted_cp; auto.
  - intros r Hr Hne. by apply lookup_defaulted_other.
Qed.

Lemma defaults_written_in_place_witness :
  snd (call [[("prior_sigma_delay", VNum 1)]; [(date_key, VDate 0)]]
            [] [1%nat] 0 20 0 (Some 0%nat))
  = Raise (RuntimeError lead_time_msg)
  /\ dict_at (heap (fst (call [[("prior_sigma_delay", VNum 1)]; [(date_key, VDate 0)]]
                              [] [1%nat] 0 20 0 (Some 0%nat))))
             0%nat
     = fill_defaults default_priors [("prior_sigma_delay", VNum 1)].
Proof.
  split; [reflexivity|].
  apply (defaults_written_in_place
           [[("prior_sigma_delay", VNum 1)]; [(date_key, VDate 0)]]
           [] [1%nat] 0 20 0 (Some 0%nat)); reflexivity.
Defined.






(** ** The ordering check *)

Lemma date_scan_dates (prev : Z) (dates : list Z) :
  date_scan (VDate prev) (map VDate dates)
  = if nondecreasing (prev :: dates) then Ok tt else Raise (RuntimeError ordering_msg).
Proof.
  revert prev. induction dates as [|z dates IH]; intros prev; [reflexivity|].
  cbn [map date_scan gt_outcome]. rewrite IH.
  change (nondecreasing (prev :: z :: dates))
    with ((prev <=? z)%Z && nondecreasing (z :: dates)).
  rewrite Z.leb_antisym. destruct (z <? prev)%Z; reflexivity.
Qed.

Lemma date_scan_sorted (dates : list Z) :
  date_scan VNone (map VDate dates)
  = if nondecreasing dates then Ok tt else Raise (RuntimeError ordering_msg).
Proof.
  destruct dates as [|z dates]; [reflexivity|].
  cbn [map date_scan]. apply date_scan_dates.
Qed.

Lemma forallb_ext_in {X} (f g : X -> bool) (l : list X) :
  (forall x, x ∈ l -> f x = g x) -> forallb f l = forallb g l.
Proof.
  induction l as [|x l IH]; intros H; simpl; [reflexivity|].
  rewrite (H x) by left. rewrite IH; [reflexivity|]. intros y Hy. apply H. by right.
Qed.

Lemma map_ext_elem {X Y} (f g : X -> Y) (l : list X) :
  (forall x, x ∈ l -> f x = g x) -> map f l = map g l.
Proof.
  induction l as [|x l IH]; intros H; simpl; [reflexivity|].
  rewrite (H x) by left. rewrite IH; [reflexivity|]. intros y Hy. apply H. by right.
Qed.

Lemma is_num_outcome_of_option k o : is_num (outcome_of_option k o) = is_num_opt o.
Proof. by destruct o as [[]|]. Qed.



Lemma horizon_ok_outcome h cps p obs T diff :
  refs_ok h cps p = true -> config_ok h cps p = true ->
  horizon_ok (dict_at h p) obs T diff = true ->
  horizon_outcome (defaulted h cps p) obs T diff p = Ok tt.
Proof.
  intros Hrefs Hcfg Hok. rewrite horizon_outcome_defaulted by assumption.
  unfold horizon_ok in Hok. destruct (delay_prior _) as [[a c]|]; [|discriminate].
  apply andb_true_iff in Hok as [H1 H2].
  apply negb_true_iff in H1, H2. by rewrite H1, H2.
Qed.

Lemma call_build_result h obs cps d0 T diff priors :
  let h0 := entry_heap h priors in
  let p := entry_ref h priors in
  refs_ok h0 cps p = true -> config_ok h0 cps p = true ->
  horizon_outcome (defaulted h0 cps p) obs T diff p = Ok tt ->
  match build_result (defaulted h0 cps p) cps p with
  | Ok _ => exists m, snd (call h obs cps d0 T diff priors) = Ok m
  | Raise e => snd (call h obs cps d0 T diff priors) = Raise e
  end.
Proof.
  intros h0 p Hrefs Hcfg Hh. rewrite call_config_ok by assumption. fold h0 p.
  rewrite Hh.
  apply (build_model_result obs cps d0 T diff p (defaulted h0 cps p) []).
  by apply reads_ok_defaulted.
Qed.



(** ** A change point without its transition-center date *)

Lemma gt_outcome_raise a b e : gt_outcome a b = Raise e -> e = TypeError.
Proof. destruct a, b; cbn; congruence. Qed.

Lemma date_scan_none (date_before : pyval) (dates : list pyval) :
  VNone ∈ dates ->
  date_scan date_before dates = Raise TypeError
  \/ date_scan date_before dates = Raise (RuntimeError ordering_msg).
Proof.
  revert date_before. induction dates as [|v dates IH]; intros date_before Hin.
  - by apply not_elem_of_nil in Hin.
  - cbn [date_scan].
    destruct (match date_before with VNone => Ok false | _ => gt_outcome date_before v end)
      as [[|]|e] eqn:Hcmp.
    + by right.
    + destruct v as [q| |z]; [by left | by left |].
      apply IH. apply elem_of_cons in Hin as [Hv|Hin]; [discriminate Hv | exact Hin].
    + left. f_equal. destruct date_before; try discriminate Hcmp;
        by apply gt_outcome_raise in Hcmp.
Qed.

Lemma build_result_none (h : list dict) (cps : list ref) (p r : ref) :
  r ∈ cps -> item h date_key r = VNone ->
  build_result h cps p = Raise TypeError
  \/ build_result h cps p = Raise (RuntimeError ordering_msg).
Proof.
  intros Hr Hitem. unfold build_result.
  destruct (negb (is_num (read_item h p "prior_median_λ_0"))); [by left|].
  destruct (negb (forallb _ cps)); [by left|].
  assert (Hin : VNone ∈ map (item h date_key) cps).
  { rewrite <- Hitem. apply list_elem_of_In, in_map. by apply list_elem_of_In. }
  destruct (date_scan_none VNone _ Hin) as [-> | ->]; [by left | by right].
Qed.

(** C10: a change point that has no 'prior_mean_date_begin_transient' passes
    lines 52-66: no error is raised there and the key is filled with None.
    The call then never returns a model and never reports an unknown option:
    it fails in a horizon check or, once those pass, while the graph is
    built, with the TypeError of using None as a date (or with the ordering
    error of an earlier pair of change points). *)
Theorem missing_center_date_passes_validation h obs cps d0 T diff priors r :
  let h0 := entry_heap h priors in
  let p := entry_ref h priors in
  let res := call h obs cps d0 T diff priors in
  refs_ok h0 cps p = true ->
  config_ok h0 cps p = true ->
  r ∈ cps ->
  dict_mem date_key (dict_at h0 r) = false ->
  validate_and_default cps p (mkState h0 []) = (mkState (defaulted h0 cps p) [], Ok tt)
  /\ dict_get date_key (dict_at (defaulted h0 cps p) r) = Some VNone
  /\ (forall m, snd res <> Ok m)
  /\ (forall k, snd res <> Raise (RuntimeError (unknown_prior_msg k)))
  /\ (horizon_ok (dict_at h0 p) obs T diff = true ->
      snd res = Raise TypeError \/ snd res = Raise (RuntimeError ordering_msg)).
Proof.
  intros h0 p res Hrefs Hcfg Hr Hmiss.
  pose proof (config_ok_not_aliased _ _ _ Hcfg) as Hnin.
  apply refs_ok_spec in Hrefs as Hlt. destruct Hlt as [Hp Hcps].
  assert (Hget : dict_get date_key (dict_at (defaulted h0 cps p) r) = Some VNone).
  { rewrite (dict_at_lookup _ _ _ (lookup_defaulted_cp h0 cps p r (Hcps r Hr) Hr Hnin)).
    rewrite dict_get_fill. unfold lookup_default, dict_mem in *.
    by destruct (dict_get date_key (dict_at h0 r)). }
  assert (Hitem : item (defaulted h0 cps p) date_key r = VNone).
  { unfold item, read_item.
    rewrite (lookup_defaulted_cp h0 cps p r (Hcps r Hr) Hr Hnin).
    rewrite (dict_at_lookup _ _ _ (lookup_defaulted_cp h0 cps p r (Hcps r Hr) Hr Hnin))
      in Hget. by rewrite Hget. }
  assert (Hbuild : horizon_outcome (defaulted h0 cps p) obs T diff p = Ok tt ->
                   snd res = Raise TypeError
                   \/ snd res = Raise (RuntimeError ordering_msg)).
  { intros Hh.
    pose proof (call_build_result h obs cps d0 T diff priors Hrefs Hcfg Hh) as Hres.
    fold h0 p res in Hres.
    destruct (build_result_none _ cps p r Hr Hitem) as [Hb|Hb];
      rewrite Hb in Hres; auto. }
  split; [|split; [exact Hget|split; [|split]]].
  - rewrite validate_and_default_run by exact Hrefs. by rewrite validate_outcome_ok.
  - intros m Hm.
    destruct (horizon_outcome (defaulted h0 cps p) obs T diff p) as [[]|e] eqn:Hh.
    + destruct (Hbuild eq_refl) as [Hb|Hb]; congruence.
    + subst res. rewrite call_config_ok in Hm by assumption. fold h0 p in Hm.
      rewrite Hh in Hm. discriminate Hm.
  - intros k. by apply call_no_unknown_error.
  - intros Hh. apply Hbuild. by apply horizon_ok_outcome.
Qed.

Lemma missing_center_date_passes_validation_witness :
  dict_get date_key (dict_at (defaulted [[]] [0%nat] 1%nat) 0%nat) = Some VNone
  /\ snd (call [[]] [1; 2; 3]%Q [0%nat] (day 0) 30 13 None) = Raise TypeError.
Proof.
  assert (Hh : horizon_ok (dict_at (entry_heap [[]] None) (entry_ref [[]] None))
                          [1; 2; 3]%Q 30 13 = true) by (vm_compute; reflexivity).
  pose proof (missing_center_date_passes_validation
                [[]] [1; 2; 3]%Q [0%nat] (day 0) 30 13 None 0%nat
                eq_refl eq_refl (list_elem_of_here _ _) eq_refl)
    as (_ & Hnone & _ & _ & Hlate).
  split; [exact Hnone|].
  destruct (Hlate Hh) as [Hty|Hord]; [exact Hty|].
  vm_compute in Hord. discriminate Hord.
Defined.

(** ** The meaning of the graph *)


Lemma Q2R_0 : Q2R 0 = 0%R.
Proof. unfold Q2R. simpl. lra. Qed.

Lemma Q2R_1 : Q2R 1 = 1%R.
Proof. unfold Q2R. simpl. lra. Qed.


Lemma denote_py_sum_app rv ss sir dc (l : list tensor) (acc : tensor) (t : nat) :
  denote rv ss sir dc (fold_left TAdd l acc) t
  = (denote rv ss sir dc acc t
     + fold_right (fun e r => denote rv ss sir dc e t + r) 0 l)%R.
Proof.
  revert acc. induction l as [|e l IH]; intros acc; cbn [fold_left fold_right].
  - lra.
  - rewrite IH. cbn [denote]. lra.
Qed.

(* λ_t at day [t]: the sum of the increments, with no baseline term *)
Lemma denote_lam_t_graph rv ss sir dc (n : nat) (T : Z) (t : nat) :
  denote rv ss sir dc (lam_t_graph n T) t
  = fold_right (fun i r =>
        (ss 0 1 (rv (transient_begin_name i))
            (rv (transient_begin_name i) + rv (transient_len_name i)) T t
         * (rv (lam_name (i + 1)) - rv "λ_0") + r)%R) 0%R (seq 0 n).
Proof.
  unfold lam_t_graph, py_sum. rewrite denote_py_sum_app. cbn [denote].
  rewrite Q2R_0, Rplus_0_l. induction (seq 0 n) as [|i l IH]; [reflexivity|].
  cbn [map fold_right]. rewrite IH. unfold increment at 1. cbn [denote].
  rewrite Q2R_0, Q2R_1. reflexivity.
Qed.

(** ** What a returned model contains *)

Lemma bind_ok_inv {A B} (c : M A) (k : A -> M B) s b :
  snd (bind c k s) = Ok b ->
  exists a s', c s = (s', Ok a) /\ snd (k a s') = Ok b.
Proof.
  unfold bind. destruct (c s) as [s' [a|e]]; [eauto | discriminate].
Qed.

Lemma call_ok_shape h obs cps d0 T diff priors m :
  snd (call h obs cps d0 T diff priors) = Ok m ->
  map fst m = expected_names (length cps)
  /\ exists m1,
       m = m1 ++ [ ("obs", obs_dist (length cps) T diff obs);
                   ("λ_t", Deterministic (lam_t_graph (length cps) T));
                   ("new_cases", Deterministic (new_cases_graph (length cps) T diff)) ].
Proof.
  unfold call, SIR_model_with_change_points. intros H.
  apply bind_ok_inv in H as (p & s1 & _ & H).
  apply bind_ok_inv in H as ([] & s2 & _ & H).
  apply bind_ok_inv in H as ([] & [h3 m3] & _ & H).
  destruct (build_model_shape obs cps d0 T diff p h3 m3) as [_ Hs].
  rewrite H in Hs. tauto.
Qed.

Lemma registered_lam_t h obs cps d0 T diff priors m :
  snd (call h obs cps d0 T diff priors) = Ok m ->
  In ("λ_t", Deterministic (lam_t_graph (length cps) T)) m.
Proof.
  intros (_ & m1 & ->)%call_ok_shape. apply in_or_app. right. cbn. tauto.
Qed.

(** C1 (the code departs from it): with two change points the second term
    of λ_t_list is the smooth step times (λ_2 - λ_0), not (λ_2 - λ_1):
    line 110 sets λ_step_before to λ_list[0] and the loop never advances it.
    After both transitions (both steps at 1) and with rates λ_0 = 1, λ_1 = 3,
    λ_2 = 4, the second increment is worth 3 where the telescoping
    construction gives 1, and the assembled λ_t is 5 where the plateau rate
    is λ_2 = 4. *)
Theorem second_increment_measured_from_baseline :
  let res := call [[(date_key, VDate (day 20))]; [(date_key, VDate (day 30))]]
                  [1; 2; 3]%Q [0; 1]%nat (day 0) 40 13 None in
  let step i := TSmoothStep 0 1 (TVar (transient_begin_name i))
                  (TAdd (TVar (transient_begin_name i)) (TVar (transient_len_name i)))
                  40 in
  let lam_t := TAdd (TAdd (TNum 0)
                          (TMul (step 0%nat) (TSub (TVar "λ_1") (TVar "λ_0"))))
                    (TMul (step 1%nat) (TSub (TVar "λ_2") (TVar "λ_0"))) in
  let rv name := if String.eqb name "λ_0" then 1%R
                 else if String.eqb name "λ_1" then 3%R
                 else if String.eqb name "λ_2" then 4%R else 0%R in
  let ss := fun _ _ _ _ _ _ => 1%R in
  (exists m, snd res = Ok m /\ In ("λ_t", Deterministic lam_t) m)
  /\ (forall sir dc t,
        denote rv ss sir dc (TMul (step 1%nat) (TSub (TVar "λ_2") (TVar "λ_0"))) t = 3%R
        /\ denote rv ss sir dc (TMul (step 1%nat) (TSub (TVar "λ_2") (TVar "λ_1"))) t = 1%R
        /\ denote rv ss sir dc lam_t t = 5%R
        /\ rv "λ_2" = 4%R).
Proof.
  intros res step lam_t rv ss. split.
  - eexists. split; [vm_compute; reflexivity|].
    vm_compute. do 12 right. left. reflexivity.
  - intros sir dc t. unfold lam_t, step, rv, ss. cbn. unfold Q2R. cbn.
    repeat split; lra.
Qed.

(** C2 (the code departs from it): line 118 sums the increments only and
    never adds the baseline λ_0. With an empty change-point list the
    registered λ_t is the integer 0 that sum([]) returns, at every day and
    whatever value λ_0 takes, although λ_0 is declared in the model. *)
Theorem empty_schedule_is_zero_not_baseline :
  let res := call [] [1; 2; 3]%Q [] (day 0) 40 13 None in
  (exists m, snd res = Ok m
             /\ In ("λ_0", Lognormal (2 # 5) (VNum (1 # 2))) m
             /\ In ("λ_t", Deterministic (TNum 0)) m)
  /\ (forall rv ss sir dc t,
        denote rv ss sir dc (TNum 0) t = 0%R
        /\ (rv "λ_0" <> 0%R -> denote rv ss sir dc (TNum 0) t <> rv "λ_0")).
Proof.
  intros res. split.
  - eexists. split; [vm_compute; reflexivity|]. split.
    + vm_compute. do 1 right. left. reflexivity.
    + vm_compute. do 6 right. left. reflexivity.
  - intros rv ss sir dc t. cbn [denote]. rewrite Q2R_0. split; [reflexivity|].
    intros Hne Heq. by apply Hne.
Qed.

Lemma registered_obs h obs cps d0 T diff priors m :
  snd (call h obs cps d0 T diff priors) = Ok m ->
  In ("obs", obs_dist (length cps) T diff obs) m
  /\ In ("new_cases", Deterministic (new_cases_graph (length cps) T diff)) m.
Proof.
  intros (_ & m1 & ->)%call_ok_shape.
  split; apply in_or_app; right; cbn; tauto.
Qed.




(** ** Two runs that read the same values *)

Section SameRun.
Context (h1 h2 : list dict).

Lemma same_pure {A} (o : outcome A) :
  same_run h1 h2 (fun s => (s, o)) (fun s => (s, o)).
Proof. by intros m. Qed.

Lemma same_ret {A} (a : A) : same_run h1 h2 (ret a) (ret a).
Proof. apply same_pure. Qed.

Lemma same_raise {A} (e : exn) : same_run h1 h2 (@raise A e) (raise e).
Proof. apply same_pure. Qed.

Lemma same_bind {A B} (c1 c2 : M A) (k1 k2 : A -> M B) :
  same_run h1 h2 c1 c2 -> (forall a, same_run h1 h2 (k1 a) (k2 a)) ->
  same_run h1 h2 (bind c1 k1) (bind c2 k2).
Proof.
  intros Hc Hk m. unfold bind. destruct (Hc m) as (H1 & H2 & Hm & Ho).
  destruct (c1 (mkState h1 m)) as [[h1' m1] o1], (c2 (mkState h2 m)) as [[h2' m2] o2].
  cbn [fst snd heap model] in *. subst h1' h2' m2 o2.
  destruct o1 as [a|e]; [apply Hk | done].
Qed.

Lemma same_getitem (r1 r2 : ref) (k : string) :
  read_item h1 r1 k = read_item h2 r2 k ->
  same_run h1 h2 (getitem r1 k) (getitem r2 k).
Proof. intros Hr m. rewrite !getitem_run. cbn [fst snd heap model]. by rewrite Hr. Qed.

Lemma same_declare name d : same_run h1 h2 (declare name d) (declare name d).
Proof. by intros m. Qed.

Lemma same_np_log v : same_run h1 h2 (np_log v) (np_log v).
Proof. destruct v; apply same_pure. Qed.

Lemma same_for_enumerate {A L} (l : list A) (b1 b2 : nat -> A -> L -> M L) :
  (forall i x acc, x ∈ l -> same_run h1 h2 (b1 i x acc) (b2 i x acc)) ->
  forall i acc, same_run h1 h2 (for_enumerate i l b1 acc) (for_enumerate i l b2 acc).
Proof.
  induction l as [|x l IH]; intros Hb i acc; cbn [for_enumerate].
  - apply same_ret.
  - apply same_bind; [apply Hb; left|]. intros acc'. apply IH.
    intros j y acc1 Hy. apply Hb. by right.
Qed.

Lemma same_build_model obs cps d0 T diff (p1 p2 : ref) :
  (forall k, read_item h1 p1 k = read_item h2 p2 k) ->
  (forall r k, r ∈ cps -> read_item h1 r k = read_item h2 r k) ->
  same_run h1 h2 (build_model obs cps d0 T diff p1) (build_model obs cps d0 T diff p2).
Proof.
  intros Hp Hcps. unfold build_model.
  apply same_bind; [by intros m|]. intros _.
  apply same_bind; [by apply same_getitem|]. intros beta.
  apply same_bind; [apply same_declare|]. intros I_begin.
  apply same_bind; [by apply same_getitem|]. intros median.
  apply same_bind; [apply same_np_log|]. intros mu.
  apply same_bind; [by apply same_getitem|]. intros sigma.
  apply same_bind; [apply same_declare|]. intros lam_0.
  apply same_bind.
  { apply same_for_enumerate. intros i r acc Hr.
    apply same_bind; [by apply same_getitem, Hcps|]. intros median'.
    apply same_bind; [apply same_np_log|]. intros mu'.
    apply same_bind; [by apply same_getitem, Hcps|]. intros sigma'.
    apply same_bind; [apply same_declare|]. intros lam_i. apply same_ret. }
  intros lam_list.
  apply same_bind.
  { apply same_for_enumerate. intros i r [tbl date_before] Hr.
    apply same_bind; [by apply same_getitem, Hcps|]. intros date.
    apply same_bind.
    { destruct date_before; try apply same_ret;
        destruct date; first [apply same_ret | apply same_raise]. }
    intros [|]; [apply same_raise|].
    apply same_bind; [destruct date; first [apply same_ret | apply same_raise]|].
    intros days.
    apply same_bind; [by apply same_getitem, Hcps|]. intros sigma'.
    apply same_bind; [apply same_declare|]. intros tb. apply same_ret. }
  intros begins.
  apply same_bind.
  { apply same_for_enumerate. intros i r acc Hr.
    apply same_bind; [by apply same_getitem, Hcps|]. intros median'.
    apply same_bind; [apply same_np_log|]. intros mu'.
    apply same_bind; [by apply same_getitem, Hcps|]. intros sigma'.
    apply same_bind; [apply same_declare|]. intros tl_i. apply same_ret. }
  intros transient_len_list. cbv zeta.
  apply same_bind; [by apply same_getitem|]. intros median_mu.
  apply same_bind; [apply same_np_log|]. intros mu_mu.
  apply same_bind; [by apply same_getitem|]. intros sigma_mu.
  apply same_bind; [apply same_declare|]. intros mu_rate.
  apply same_bind; [by apply same_getitem|]. intros median_delay.
  apply same_bind; [apply same_np_log|]. intros mu_delay.
  apply same_bind; [by apply same_getitem|]. intros sigma_delay.
  apply same_bind; [apply same_declare|]. intros delay.
  apply same_bind; [by apply same_getitem|]. intros beta_obs.
  apply same_bind; [apply same_declare|]. intros sigma_obs.
  apply same_bind; [apply same_declare|]. intros _.
  apply same_bind; [apply same_declare|]. intros _.
  apply same_bind; [apply same_declare|]. intros _.
  by intros m.
Qed.

End SameRun.

Lemma lookup_default_fill defaults d k :
  lookup_default defaults (fill_defaults defaults d) k = lookup_default defaults d k.
Proof.
  unfold lookup_default at 1. rewrite dict_get_fill.
  destruct (lookup_default defaults d k) eqn:Hl; [reflexivity|].
  unfold lookup_default in Hl. by destruct (dict_get k d).
Qed.

Lemma horizon_outcome_ext h1 h2 obs T diff (p1 p2 : ref) :
  (forall k, read_item h1 p1 k = read_item h2 p2 k) ->
  horizon_outcome h1 obs T diff p1 = horizon_outcome h2 obs T diff p2.
Proof. intros Hp. unfold horizon_outcome. by rewrite !Hp. Qed.

(* a second call finds, in the dictionaries the first one filled, the values
   the first one read *)
Lemma rerun_reads (h0 h0' : list dict) (cps : list ref) (p p' : ref) :
  refs_ok h0 cps p = true -> config_ok h0 cps p = true ->
  refs_ok h0' cps p' = true -> p' ∉ cps ->
  all_known default_priors (dict_at h0' p') = true ->
  (forall k, lookup_default default_priors (dict_at h0' p') k
             = lookup_default default_priors (dict_at h0 p) k) ->
  (forall r, r ∈ cps -> dict_at h0' r = dict_at (defaulted h0 cps p) r) ->
  config_ok h0' cps p' = true
  /\ (forall k, read_item (defaulted h0' cps p') p' k
                = read_item (defaulted h0 cps p) p k)
  /\ (forall r k, r ∈ cps ->
        read_item (defaulted h0' cps p') r k = read_item (defaulted h0 cps p) r k).
Proof.
  intros Hrefs Hcfg Hrefs' Hnin' Hknown Hpri Hcp.
  pose proof (config_ok_not_aliased _ _ _ Hcfg) as Hnin.
  apply refs_ok_spec in Hrefs as [Hp Hcps]. apply refs_ok_spec in Hrefs' as [Hp' Hcps'].
  assert (Hfilled : forall r, r ∈ cps ->
            dict_at h0' r = fill_defaults default_priors_change_points (dict_at h0 r)).
  { intros r Hr. rewrite (Hcp r Hr). apply dict_at_lookup.
    apply lookup_defaulted_cp; auto. }
  split; [|split].
  - unfold config_ok. rewrite Hknown, bool_decide_eq_false_2 by exact Hnin'.
    cbn [negb andb]. apply forallb_forall. intros r Hr%list_elem_of_In.
    rewrite (Hfilled r Hr), all_known_fill.
    unfold config_ok in Hcfg. apply andb_true_iff in Hcfg as [_ Hall].
    rewrite forallb_forall in Hall. by apply Hall, list_elem_of_In.
  - intros k. rewrite !read_defaulted_priors by assumption. by rewrite Hpri.
  - intros r k Hr. rewrite !read_defaulted_cp by auto.
    by rewrite (Hfilled r Hr), lookup_default_fill.
Qed.

Lemma expected_names_length n : length (expected_names n) = (3 * n + 8)%nat.
Proof.
  unfold expected_names. rewrite !length_app, !length_map, !length_seq. simpl. lia.
Qed.

Lemma format_nat_inj (a b : nat) : format_nat a = format_nat b -> a = b.
Proof.
  unfold format_nat. intros H. apply Unsigned.to_uint_inj.
  apply (f_equal NilEmpty.uint_of_string) in H. rewrite !NilEmpty.usu in H.
  by injection H.
Qed.

Lemma format_nat_not_letter (a : nat) : format_nat a <> "t".
Proof.
  unfold format_nat. intros H.
  apply (f_equal NilEmpty.uint_of_string) in H. rewrite NilEmpty.usu in H.
  discriminate H.
Qed.

Lemma format_nat_succ_not_zero (a : nat) : format_nat (a + 1) <> "0".
Proof.
  intros H. apply (format_nat_inj (a + 1) 0) in H. lia.
Qed.

Lemma NoDup_map_seq (f : nat -> string) (n : nat) :
  (forall a b, f a = f b -> a = b) -> NoDup (map f (seq 0 n)).
Proof.
  intros Hf. change (map f (seq 0 n)) with (f <$> seq 0 n).
  apply NoDup_fmap_2; [exact Hf | apply NoDup_seq].
Qed.

Ltac split_names :=
  repeat match goal with
         | H : _ ∈ _ ++ _ |- _ => apply elem_of_app in H as [H|H]
         | H : _ ∈ map _ _ |- _ => apply list_elem_of_In, in_map_iff in H as (? & H & _)
         | H : _ ∈ _ :: _ |- _ => apply elem_of_cons in H as [H|H]
         | H : _ ∈ [] |- _ => by apply not_elem_of_nil in H
         end.

Ltac names_differ :=
  unfold lam_name, transient_begin_name, transient_len_name in *;
  cbn [String.append] in *;
  match goal with
  | H : _ = _ |- _ =>
      first [ discriminate H
            | injection H as H;
              first [ by apply format_nat_not_letter in H
                    | by apply format_nat_succ_not_zero in H
                    | by symmetry in H; apply format_nat_not_letter in H
                    | by symmetry in H; apply format_nat_succ_not_zero in H ] ]
  end.

(* the names of a model never clash *)
Lemma expected_names_NoDup (n : nat) : NoDup (expected_names n).
Proof.
  unfold expected_names.
  apply NoDup_app; split; [|split; [|apply NoDup_app; split; [|split;
    [|apply NoDup_app; split; [|split; [|apply NoDup_app; split; [|split]]]]]]].
  - apply NoDup_cons. split; [|apply NoDup_singleton].
    intros H. split_names. discriminate H.
  - intros x Hx Hk. split_names; subst; names_differ.
  - apply NoDup_map_seq. intros a b H. unfold lam_name in H. cbn [String.append] in H.
    injection H as H. apply format_nat_inj in H. lia.
  - intros x Hx Hk. split_names; subst; names_differ.
  - apply NoDup_map_seq. intros a b H. unfold transient_begin_name in H.
    cbn [String.append] in H. injection H as H. by apply format_nat_inj.
  - intros x Hx Hk. split_names; subst; names_differ.
  - apply NoDup_map_seq. intros a b H. unfold transient_len_name in H.
    cbn [String.append] in H. injection H as H. by apply format_nat_inj.
  - intros x Hx Hk. split_names; subst; names_differ.
  - repeat (apply NoDup_cons; split; [intros H; split_names; discriminate H|]).
    apply NoDup_nil_2.
Qed.

(** C8: a call that returns a model has registered exactly the names
    I_begin, λ_0, λ_1..λ_n, transient_begin_0..n-1, transient_len_0..n-1, μ,
    delay, σ_obs, obs, λ_t, new_cases, in this order and each once: 3n + 8
    variables for n change points, whatever the values of the configuration.
    Calling again with the same arguments, on the dictionaries as the first
    call left them, returns the same model. *)
Theorem assembly_structure_is_deterministic h obs cps d0 T diff priors m :
  let h0 := entry_heap h priors in
  let p := entry_ref h priors in
  let res := call h obs cps d0 T diff priors in
  refs_ok h0 cps p = true ->
  snd res = Ok m ->
  map fst m = expected_names (length cps)
  /\ NoDup (map fst m)
  /\ length m = (3 * length cps + 8)%nat
  /\ snd (call (heap (fst res)) obs cps d0 T diff priors) = Ok m.
Proof.
  intros h0 p res Hrefs Hm.
  destruct (call_ok_shape _ _ _ _ _ _ _ _ Hm) as [Hnames _].
  split; [exact Hnames|]. split.
  { rewrite Hnames. apply expected_names_NoDup. }
  split.
  { by rewrite <- (length_map fst), Hnames, expected_names_length. }
  assert (Hcfg : config_ok h0 cps p = true).
  { destruct (config_ok h0 cps p) eqn:Hcfg; [reflexivity|].
    destruct (call_config_bad h obs cps d0 T diff priors Hrefs Hcfg) as (h1 & k & Hc).
    subst res. rewrite Hc in Hm. discriminate Hm. }
  pose proof (call_heap_config_ok h obs cps d0 T diff priors Hrefs Hcfg) as Hheap.
  fold h0 p res in Hheap. rewrite Hheap.
  set (h' := defaulted h0 cps p) in *.
  pose proof (config_ok_not_aliased _ _ _ Hcfg) as Hnin.
  apply refs_ok_spec in Hrefs as Hlt. destruct Hlt as [Hp Hcps].
  assert (Hlen : length h' = length h0) by apply length_defaulted.
  assert (Hsecond : refs_ok (entry_heap h' priors) cps (entry_ref h' priors) = true
            /\ (entry_ref h' priors ∉ cps)
            /\ all_known default_priors
                 (dict_at (entry_heap h' priors) (entry_ref h' priors)) = true
            /\ (forall k,
                  lookup_default default_priors
                    (dict_at (entry_heap h' priors) (entry_ref h' priors)) k
                  = lookup_default default_priors (dict_at h0 p) k)
            /\ (forall r, r ∈ cps -> dict_at (entry_heap h' priors) r = dict_at h' r)).
  { subst h0 p. destruct priors as [q|]; cbn [entry_heap entry_ref] in *.
    - split; [apply refs_ok_spec; split; [lia | intros r Hr; rewrite Hlen; auto]|].
      split; [exact Hnin|]. unfold h'.
      rewrite (dict_at_lookup _ _ _ (lookup_defaulted_priors h cps q Hp Hnin)).
      split; [|split; [|done]].
      + rewrite all_known_fill. unfold config_ok in Hcfg.
        by apply andb_true_iff in Hcfg as [[? _]%andb_true_iff _].
      + intros k. apply lookup_default_fill.
    - assert (Hcps' : forall r, r ∈ cps -> (r < length h')%nat).
      { intros r Hr. rewrite Hlen. auto. }
      split.
      { apply refs_ok_spec. rewrite length_app. cbn [length].
        split; [lia | intros r Hr; specialize (Hcps' r Hr); lia]. }
      split; [intros Hin; specialize (Hcps' _ Hin); lia|].
      assert (Hnew : forall (g : list dict), dict_at (g ++ [[]]) (length g) = []).
      { intros g. unfold dict_at. rewrite lookup_app_r, Nat.sub_diag by lia. reflexivity. }
      rewrite !Hnew. split; [reflexivity|]. split; [reflexivity|].
      intros r Hr. unfold dict_at. by rewrite lookup_app_l by auto. }
  destruct Hsecond as (Hrefs' & Hnin' & Hknown & Hpri & Hcp).
  destruct (rerun_reads h0 (entry_heap h' priors) cps p (entry_ref h' priors)
              Hrefs Hcfg Hrefs' Hnin' Hknown Hpri Hcp) as (Hcfg' & Hrp & Hrc).
  rewrite call_config_ok by assumption.
  subst res. rewrite call_config_ok in Hm by assumption. fold h0 p h' in Hm.
  rewrite (horizon_outcome_ext _ h' _ _ _ _ p Hrp).
  destruct (horizon_outcome h' obs T diff p) as [[]|e]; [|discriminate Hm].
  destruct (same_build_model _ h' obs cps d0 T diff _ p Hrp Hrc []) as (_ & _ & _ & ->).
  exact Hm.
Qed.

Lemma assembly_structure_is_deterministic_witness :
  exists m,
    snd (call [[(date_key, VDate (day 20))]] [1; 2; 3]%Q [0%nat] (day 0) 40 13 None) = Ok m
    /\ map fst m = expected_names 1
    /\ NoDup (map fst m)
    /\ length m = 11%nat.
Proof.
  assert (Hok : exists m,
            snd (call [[(date_key, VDate (day 20))]] [1; 2; 3]%Q [0%nat] (day 0) 40 13 None)
            = Ok m) by (eexists; vm_compute; reflexivity).
  destruct Hok as [m Hm]. exists m. split; [exact Hm|].
  destruct (assembly_structure_is_deterministic
              [[(date_key, VDate (day 20))]] [1; 2; 3]%Q [0%nat] (day 0) 40 13 None m
              eq_refl Hm) as (Hnames & Hdup & Hlen & _).
  split; [exact Hnames | split; [exact Hdup | exact Hlen]].
Defined.

(** ** The model a call returns, entry by entry *)

Lemma trace_post_raise h obs cps d0 T diff p m e :
  is_runtime_error e = false -> trace_post h obs cps d0 T diff p (mkState h m) (Raise e).
Proof. intros He. split; [reflexivity|]. by destruct e. Qed.

Lemma item_of_read h r k v : read_item h r k = Ok v -> item h k r = v.
Proof. unfold item. by intros ->. Qed.

Lemma imap_take_S {X Y} (f : nat -> X -> Y) (l : list X) (j : nat) (x : X) :
  l !! j = Some x -> imap f (take (S j) l) = imap f (take j l) ++ [f j x].
Proof.
  intros Hj. rewrite (take_S_r _ _ _ Hj), imap_app. cbn [imap].
  rewrite length_take, Nat.add_0_r, Nat.min_l; [reflexivity|].
  apply lookup_lt_Some in Hj. lia.
Qed.

Lemma wp_unordered_dates date_before v s (Q : state -> outcome bool -> Prop) :
  date_before = VNone \/ (exists z, date_before = VDate z) ->
  Q s (Raise TypeError) ->
  (forall b,
     (b = true -> exists z1 z2,
        date_before = VDate z1 /\ v = VDate z2 /\ (z2 < z1)%Z) ->
     Q s (Ok b)) ->
  wp (match date_before with
      | VNone => ret false
      | _ => py_gt date_before v
      end) s Q.
Proof.
  intros [->|[z1 ->]] He Hb.
  - apply Hb. intros Hx; discriminate Hx.
  - destruct v as [q| |z2]; [exact He | exact He |].
    apply Hb. intros Hlt. exists z1, z2. repeat split. by apply Z.ltb_lt.
Qed.

Ltac tr_read :=
  apply wp_bind, wp_getitem; cbn [heap];
  match goal with
  | |- context [read_item ?h ?r ?k] =>
      let E := fresh "E" in
      destruct (read_item h r k) as [?v|?e] eqn:E;
      [apply item_of_read in E
      | by apply trace_post_raise, (read_item_raise _ _ _ _ E)]
  end.

Ltac tr_log :=
  apply wp_bind, wp_np_log;
  match goal with
  | |- context [match ?v with VNum _ => _ | _ => _ end] =>
      destruct v; [| by apply trace_post_raise | by apply trace_post_raise]
  end.

Ltac use_items :=
  repeat match goal with
         | E : item _ _ _ = _ |- _ => rewrite E; clear E
         end.

Lemma build_model_trace obs cps d0 T diff p h m0 :
  wp (build_model obs cps d0 T diff p) (mkState h m0) (trace_post h obs cps d0 T diff p).
Proof.
  unfold build_model.
  set (pv := fun k => item h k p). set (cv := fun r k => item h k r).
  apply wp_bind. unfold wp at 1. cbn [new_model fst snd heap model].
  tr_read. wp_decl. tr_read. tr_log. tr_read. wp_decl.
  match goal with
  | |- context [mkState h ?m] =>
      assert (Hhead : m = head_decls pv)
        by (unfold head_decls, pv; use_items; reflexivity);
      rewrite Hhead; clear Hhead
  end.
  apply wp_bind.
  apply (wp_for_enumerate (fun j acc s =>
           heap s = h /\
           acc = TVar "λ_0" :: map (fun i => TVar (lam_name (i + 1))) (seq 0 j) /\
           model s = head_decls pv ++ lam_decls cv (take j cps))).
  { cbn [heap model take]. unfold lam_decls. cbn [imap]. rewrite app_nil_r.
    repeat split; reflexivity. }
  { intros j x acc s Hj (Hh & -> & Hm). destruct s as [h' m']; cbn [heap model] in *.
    subst h' m'. cbn beta.
    tr_read. tr_log. tr_read. wp_decl. apply wp_ret.
    cbn [heap model]. unfold lam_decls. rewrite (imap_take_S _ _ _ _ Hj).
    unfold cv. use_items. cbn [num_of].
    rewrite seq_S, !map_app, <- !app_assoc. repeat split; reflexivity. }
  intros lam_list [h' m1] (Hh & -> & Hm1). cbn [heap model] in *. subst h' m1.
  rewrite Nat.add_0_l, firstn_all.
  apply wp_bind.
  apply (wp_for_enumerate (fun j acc s =>
           heap s = h /\
           fst acc = map (fun i => TVar (transient_begin_name i)) (seq 0 j) /\
           model s = head_decls pv ++ lam_decls cv cps ++ begin_decls cv d0 (take j cps) /\
           match j with
           | O => snd acc = VNone
           | S j' => exists r z, cps !! j' = Some r /\ cv r date_key = VDate z
                                 /\ snd acc = VDate z
           end)).
  { cbn [heap model take fst snd]. unfold begin_decls. cbn [imap]. rewrite !app_nil_r.
    repeat split; reflexivity. }
  { intros j x [tbl date_before] [h' m'] Hj (Hh & Hacc & Hm & Hdb).
    cbn [heap model fst snd] in *. subst h' tbl m'. cbn beta iota.
    tr_read.
    match goal with
    | E : item h _ x = _ |- _ => pose proof E as Hx; fold date_key in Hx; fold (cv x) in Hx
    end.
    apply wp_bind, wp_unordered_dates.
    { destruct j; [by left | destruct Hdb as (r & z & _ & _ & ->); right; by exists z]. }
    { by apply trace_post_raise. }
    intros [|] Hb.
    { destruct (Hb eq_refl) as (z1 & z2 & -> & -> & Hlt).
      apply wp_raise. split; [reflexivity|]. split; [reflexivity|].
      destruct j as [|j']; [discriminate Hdb|].
      destruct Hdb as (r & z & Hr & Hcv & [= <-]).
      exists j', r, x, z1, z2. repeat split; assumption. }
    apply wp_bind, wp_date_minus_days.
    match goal with
    | |- context [match ?v with VDate _ => _ | _ => _ end] =>
        destruct v as [?| |z]; [by apply trace_post_raise | by apply trace_post_raise |]
    end.
    tr_read. wp_decl. apply wp_ret.
    cbn [heap model fst snd]. unfold begin_decls. rewrite (imap_take_S _ _ _ _ Hj).
    unfold cv, date_key. use_items. cbn [secs_of].
    rewrite seq_S, !map_app, <- !app_assoc.
    repeat split; try reflexivity. exists x, z. repeat split; assumption. }
  intros [transient_begin_list date_last] [h' m2] (Hh & Hacc & Hm2 & _).
  cbn [heap model fst] in *. subst h' transient_begin_list m2.
  rewrite Nat.add_0_l, firstn_all.
  apply wp_bind.
  apply (wp_for_enumerate (fun j acc s =>
           heap s = h /\
           acc = map (fun i => TVar (transient_len_name i)) (seq 0 j) /\
           model s = head_decls pv ++ lam_decls cv cps ++ begin_decls cv d0 cps
                     ++ len_decls cv (take j cps))).
  { cbn [heap model take]. unfold len_decls. cbn [imap]. rewrite !app_nil_r.
    repeat split; reflexivity. }
  { intros j x acc [h' m'] Hj (Hh & -> & Hm).
    cbn [heap model] in *. subst h' m'. cbn beta.
    tr_read. tr_log. tr_read. wp_decl. apply wp_ret.
    cbn [heap model]. unfold len_decls. rewrite (imap_take_S _ _ _ _ Hj).
    unfold cv. use_items. cbn [num_of].
    rewrite seq_S, !map_app, <- !app_assoc. repeat split; reflexivity. }
  intros transient_len_list [h' m3] (Hh & -> & Hm3).
  cbn [heap model] in *. subst h' m3. rewrite Nat.add_0_l, firstn_all.
  rewrite build_lam_t_graph.
  tr_read. tr_log. tr_read. wp_decl. tr_read. tr_log. tr_read. wp_decl.
  tr_read. wp_decl. wp_decl. wp_decl. wp_decl.
  unfold wp, get_model. cbn [fst snd heap model].
  split; [reflexivity|].
  unfold model_with, tail_decls. fold pv. unfold pv. use_items. cbn [num_of].
  rewrite <- !app_assoc. reflexivity.
Qed.

Lemma item_defaulted_priors (h : list dict) (cps : list ref) (p : ref) (k : string) :
  (p < length h)%nat -> p ∉ cps ->
  item (defaulted h cps p) k p = cfg default_priors (dict_at h p) k.
Proof.
  intros Hp Hnin. unfold item, cfg. rewrite read_defaulted_priors by assumption.
  by destruct (lookup_default _ _ _).
Qed.

Lemma item_defaulted_cp (h : list dict) (cps : list ref) (p r : ref) (k : string) :
  (r < length h)%nat -> r ∈ cps -> p ∉ cps ->
  item (defaulted h cps p) k r = cfg default_priors_change_points (dict_at h r) k.
Proof.
  intros Hr Hin Hnin. unfold item, cfg. rewrite read_defaulted_cp by assumption.
  by destruct (lookup_default _ _ _).
Qed.

Lemma model_with_ext pv pv' cv cv' (cps : list ref) obs d0 T diff :
  (forall k, pv k = pv' k) ->
  (forall r k, r ∈ cps -> cv r k = cv' r k) ->
  model_with pv cv cps obs d0 T diff = model_with pv' cv' cps obs d0 T diff.
Proof.
  intros Hp Hc. unfold model_with, head_decls, tail_decls, lam_decls, begin_decls,
    len_decls.
  rewrite !Hp.
  assert (Hin : forall i r, cps !! i = Some r -> r ∈ cps).
  { intros i r Hi. apply list_elem_of_lookup. eauto. }
  f_equal. f_equal; [|f_equal; [|f_equal]].
  - apply imap_ext. intros i r Hi. by rewrite !(Hc r _ (Hin i r Hi)).
  - apply imap_ext. intros i r Hi. by rewrite !(Hc r _ (Hin i r Hi)).
  - apply imap_ext. intros i r Hi. by rewrite !(Hc r _ (Hin i r Hi)).
Qed.

Lemma date_scan_ok (date_before : pyval) (vals : list pyval) :
  date_scan date_before vals = Ok tt -> exists dates, vals = map VDate dates.
Proof.
  revert date_before. induction vals as [|v vals IH]; intros date_before H.
  - by exists [].
  - cbn [date_scan] in H.
    destruct (match date_before with VNone => Ok false | _ => gt_outcome date_before v end)
      as [[|]|e]; try discriminate H.
    destruct v as [q| |z]; try discriminate H.
    destruct (IH _ H) as [dates ->]. by exists (z :: dates).
Qed.

Lemma date_scan_ok_iff (vals : list pyval) :
  date_scan VNone vals = Ok tt <->
  exists dates, vals = map VDate dates /\ nondecreasing dates = true.
Proof.
  split.
  - intros H. destruct (date_scan_ok _ _ H) as [dates ->]. exists dates.
    split; [reflexivity|]. rewrite date_scan_sorted in H.
    by destruct (nondecreasing dates).
  - intros (dates & -> & Hs). by rewrite date_scan_sorted, Hs.
Qed.

Lemma cp_dates_values (h : list dict) (cps : list ref) (dates : list Z) :
  map (fun r => default VNone (dict_get date_key (dict_at h r))) cps = map VDate dates
  <-> map (fun r => cp_date (dict_at h r)) cps = map Some dates.
Proof.
  revert dates. induction cps as [|r cps IH]; intros [|z dates]; cbn [map];
    try (split; discriminate); [tauto|].
  unfold cp_date at 1. specialize (IH dates).
  destruct (dict_get date_key (dict_at h r)) as [[q| |z']|]; cbn [default from_option];
    split; intros H; try discriminate H;
    injection H as Hz Hrest; subst; f_equal; tauto.
Qed.

(* which way the build ends, in terms of the caller's dictionaries *)
Lemma build_result_defaulted_ok h cps p :
  refs_ok h cps p = true -> config_ok h cps p = true ->
  build_result (defaulted h cps p) cps p = Ok tt <->
  priors_numeric (dict_at h p) = true
  /\ forallb (fun r => cp_numeric (dict_at h r)) cps = true
  /\ exists dates, map (fun r => cp_date (dict_at h r)) cps = map Some dates
                   /\ nondecreasing dates = true.
Proof.
  intros Hrefs Hcfg.
  pose proof (config_ok_not_aliased _ _ _ Hcfg) as Hnin.
  apply refs_ok_spec in Hrefs as Hlt. destruct Hlt as [Hp Hcps].
  unfold build_result.
  rewrite !read_defaulted_priors, !is_num_outcome_of_option by assumption.
  rewrite (forallb_ext_in _ (fun r => is_num_opt (lookup_default
             default_priors_change_points (dict_at h r) "prior_median_λ"))).
  2:{ intros r Hr. rewrite read_defaulted_cp by auto. apply is_num_outcome_of_option. }
  rewrite (forallb_ext_in
             (fun r => is_num (read_item _ r "prior_median_transient_len"))
             (fun r => is_num_opt (lookup_default
             default_priors_change_points (dict_at h r) "prior_median_transient_len"))).
  2:{ intros r Hr. rewrite read_defaulted_cp by auto. apply is_num_outcome_of_option. }
  rewrite (map_ext_elem (item (defaulted h cps p) date_key)
             (fun r => default VNone (dict_get date_key (dict_at h r)))).
  2:{ intros r Hr. unfold item. rewrite read_defaulted_cp by auto.
      unfold lookup_default. by destruct (dict_get date_key (dict_at h r)). }
  assert (Hsplit : forallb (fun r => cp_numeric (dict_at h r)) cps
            = forallb (fun r => is_num_opt (lookup_default default_priors_change_points
                                    (dict_at h r) "prior_median_λ")) cps
              && forallb (fun r => is_num_opt (lookup_default default_priors_change_points
                                    (dict_at h r) "prior_median_transient_len")) cps).
  { clear. induction cps as [|r cps IH]; [reflexivity|]. cbn [forallb]. rewrite IH.
    unfold cp_numeric.
    destruct (is_num_opt _), (is_num_opt _), (forallb _ _), (forallb _ _); reflexivity. }
  rewrite Hsplit. unfold priors_numeric.
  setoid_rewrite <- cp_dates_values. rewrite <- date_scan_ok_iff.
  clear Hsplit.
  repeat first
    [ match goal with
      | |- (if negb ?b then _ else _) = _ <-> _ =>
          destruct b; cbn [negb andb];
          [|split; [intros Hx; discriminate Hx | intros Hx; decompose [and] Hx; discriminate]]
      end
    | match goal with
      | |- match ?d with Ok _ => _ | Raise _ => _ end = _ <-> _ =>
          destruct d as [[]|?];
          [|split; [intros Hx; discriminate Hx | intros Hx; decompose [and] Hx; discriminate]]
      end ].
  by split.
Qed.

Lemma horizon_outcome_ok_iff h cps p obs T diff :
  refs_ok h cps p = true -> config_ok h cps p = true ->
  horizon_outcome (defaulted h cps p) obs T diff p = Ok tt
  <-> horizon_ok (dict_at h p) obs T diff = true.
Proof.
  intros Hrefs Hcfg. rewrite horizon_outcome_defaulted by assumption.
  unfold horizon_ok, lead_time_bound. destruct (delay_prior _) as [[a c]|];
    [|split; intros Hx; discriminate Hx].
  destruct (Qltb _ _); cbn [negb andb]; [split; intros Hx; discriminate Hx|].
  destruct (_ <? _)%Z; cbn [negb]; split; intros Hx; (discriminate Hx || reflexivity).
Qed.

(* a returned model: what the configuration satisfies, and what the model is *)
Lemma call_ok_inv h obs cps d0 T diff priors m :
  let h0 := entry_heap h priors in
  let p := entry_ref h priors in
  refs_ok h0 cps p = true ->
  snd (call h obs cps d0 T diff priors) = Ok m ->
  call_returns h0 cps p obs T diff
  /\ m = model_of_config h0 cps p obs d0 T diff.
Proof.
  intros h0 p Hrefs Hm.
  assert (Hcfg : config_ok h0 cps p = true).
  { destruct (config_ok h0 cps p) eqn:Hcfg; [reflexivity|].
    destruct (call_config_bad h obs cps d0 T diff priors Hrefs Hcfg) as (h1 & k & Hc).
    rewrite Hc in Hm. discriminate Hm. }
  pose proof (config_ok_not_aliased _ _ _ Hcfg) as Hnin.
  apply refs_ok_spec in Hrefs as Hlt. destruct Hlt as [Hp Hcps].
  rewrite call_config_ok in Hm by assumption. fold h0 p in Hm.
  destruct (horizon_outcome (defaulted h0 cps p) obs T diff p) as [[]|e] eqn:Hh;
    [|discriminate Hm].
  apply horizon_outcome_ok_iff in Hh; [|assumption..].
  pose proof (build_model_result obs cps d0 T diff p (defaulted h0 cps p) []
                (reads_ok_defaulted _ _ _ Hrefs Hcfg)) as Hres.
  unfold wp, result_post in Hres. rewrite Hm in Hres.
  destruct (build_result (defaulted h0 cps p) cps p) as [[]|e] eqn:Hb;
    [|discriminate Hres].
  apply build_result_defaulted_ok in Hb as (Hpn & Hcn & Hdates); [|assumption..].
  split; [by repeat split|].
  destruct (build_model_trace obs cps d0 T diff p (defaulted h0 cps p) []) as [_ Ht].
  rewrite Hm in Ht. rewrite Ht. unfold model_of_config.
  apply model_with_ext.
  - intros k. by apply item_defaulted_priors.
  - intros r k Hr. apply item_defaulted_cp; auto.
Qed.


(** ** Defaults are appended, never written over *)

Lemma dict_set_absent (k : string) (v : pyval) (d : dict) :
  dict_get k d = None -> dict_set k v d = d ++ [(k, v)].
Proof.
  induction d as [|[k' v'] d IH]; cbn [dict_get dict_set app]; [reflexivity|].
  destruct (k =? k')%string; [intros Hx; discriminate Hx|].
  intros Hd. by rewrite IH.
Qed.

Lemma dict_mem_app (k : string) (d d' : dict) :
  dict_mem k (d ++ d') = (dict_mem k d || dict_mem k d')%bool.
Proof.
  unfold dict_mem. induction d as [|[k' v'] d IH]; cbn [dict_get app].
  - reflexivity.
  - destruct (k =? k')%string; [reflexivity | exact IH].
Qed.

Lemma missing_defaults_snoc (defaults d : dict) (k : string) (v : pyval) :
  k ∉ dict_keys defaults ->
  missing_defaults defaults (d ++ [(k, v)]) = missing_defaults defaults d.
Proof.
  unfold missing_defaults, dict_keys.
  induction defaults as [|[k' v'] defaults IH]; intros Hk; [reflexivity|].
  cbn [map fst] in Hk. apply not_elem_of_cons in Hk as [Hne Hk].
  cbn [List.filter fst]. rewrite IH by exact Hk. rewrite dict_mem_app.
  replace (dict_mem k' [(k, v)]) with false; [by rewrite orb_false_r|].
  unfold dict_mem. cbn [dict_get]. destruct (String.eqb_spec k' k); congruence.
Qed.

(* the loop of lines 55-57 appends the missing defaults in the table's order *)
Lemma fill_defaults_app (defaults d : dict) :
  NoDup (dict_keys defaults) ->
  fill_defaults defaults d = d ++ missing_defaults defaults d.
Proof.
  unfold fill_defaults. revert d.
  induction defaults as [|[k v] defaults IH]; intros d Hnd.
  - cbn. by rewrite app_nil_r.
  - cbn [dict_keys map fst] in Hnd. apply NoDup_cons in Hnd as [Hk Hnd].
    cbn [fold_left fst snd]. rewrite (IH _ Hnd).
    unfold set_default_dict, missing_defaults at 2. cbn [List.filter fst].
    destruct (dict_mem k d) eqn:Hmem; cbn [negb]; [reflexivity|].
    rewrite dict_set_absent by (unfold dict_mem in Hmem; by destruct (dict_get k d)).
    rewrite missing_defaults_snoc by exact Hk. by rewrite <- app_assoc.
Qed.

Ltac distinct_keys :=
  repeat (apply NoDup_cons_2;
          [ let H := fresh in
            intros H;
            repeat (apply elem_of_cons in H as [H|H]; [discriminate H|]);
            by apply elem_of_nil in H
          | ]);
  apply NoDup_nil_2.

Lemma default_priors_NoDup : NoDup (dict_keys default_priors).
Proof. unfold default_priors, dict_keys. cbn [map fst]. distinct_keys. Qed.

Lemma default_priors_change_points_NoDup : NoDup (dict_keys default_priors_change_points).
Proof. unfold default_priors_change_points, dict_keys. cbn [map fst]. distinct_keys. Qed.

Lemma missing_defaults_subset (defaults d : dict) (kv : string * pyval) :
  kv ∈ missing_defaults defaults d -> kv ∈ defaults.
Proof.
  unfold missing_defaults. intros H%list_elem_of_In%filter_In.
  apply list_elem_of_In. tauto.
Qed.

Lemma call_heap h obs cps d0 T diff priors :
  refs_ok (entry_heap h priors) cps (entry_ref h priors) = true ->
  heap (fst (call h obs cps d0 T diff priors))
  = fst (validate_outcome (entry_heap h priors) cps (entry_ref h priors)).
Proof.
  intros Hrefs. rewrite call_run by exact Hrefs. cbn zeta.
  destruct (validate_outcome _ _ _) as [h1 [[]|e]]; [|reflexivity].
  cbn [fst]. destruct (horizon_outcome _ _ _ _ _); [apply build_model_heap | reflexivity].
Qed.

Lemma dict_at_alter_cases (f : dict -> dict) (h : list dict) (p r : ref) :
  dict_at (alter f p h) r = dict_at h r \/ dict_at (alter f p h) r = f (dict_at h r).
Proof.
  destruct (decide (p = r)) as [->|Hne]; [|left; by apply dict_at_alter_ne].
  unfold dict_at. rewrite list_lookup_alter_eq. destruct (h !! r); [by right | by left].
Qed.

Lemma dict_at_fill_refs_cases (defaults : dict) (rs : list ref) (h : list dict) (r : ref) :
  dict_at (fill_refs defaults rs h) r = dict_at h r
  \/ dict_at (fill_refs defaults rs h) r = fill_defaults defaults (dict_at h r).
Proof.
  unfold dict_at. rewrite lookup_fill_refs.
  destruct (decide (r ∈ rs)); [|by left]. destruct (h !! r); [by right | by left].
Qed.

Lemma validate_outcome_length h cps p : length (fst (validate_outcome h cps p)) = length h.
Proof.
  unfold validate_outcome. destruct (first_unknown default_priors _); [reflexivity|].
  destruct (first_unknown_cp _ cps); cbn [fst];
    by rewrite ?length_fill_refs, length_alter.
Qed.

Lemma validate_outcome_frame h cps p r :
  r <> p -> r ∉ cps -> fst (validate_outcome h cps p) !! r = h !! r.
Proof.
  intros Hne Hnin. unfold validate_outcome.
  destruct (first_unknown default_priors _); [reflexivity|].
  destruct (first_unknown_cp _ cps); cbn [fst].
  - by rewrite list_lookup_alter_ne.
  - rewrite lookup_fill_refs. destruct (decide (r ∈ cps)); [contradiction|].
    by rewrite list_lookup_alter_ne.
Qed.

Lemma validate_outcome_appends h cps p r :
  exists added,
    dict_at (fst (validate_outcome h cps p)) r = dict_at h r ++ added
    /\ forall kv, kv ∈ added -> kv ∈ default_priors \/ kv ∈ default_priors_change_points.
Proof.
  assert (Hp : forall d, exists added,
             fill_defaults default_priors d = d ++ added
             /\ forall kv, kv ∈ added ->
                  kv ∈ default_priors \/ kv ∈ default_priors_change_points).
  { intros d. exists (missing_defaults default_priors d).
    split; [apply fill_defaults_app, default_priors_NoDup|].
    intros kv Hkv. left. by eapply missing_defaults_subset. }
  assert (Hc : forall d, exists added,
             fill_defaults default_priors_change_points d = d ++ added
             /\ forall kv, kv ∈ added ->
                  kv ∈ default_priors \/ kv ∈ default_priors_change_points).
  { intros d. exists (missing_defaults default_priors_change_points d).
    split; [apply fill_defaults_app, default_priors_change_points_NoDup|].
    intros kv Hkv. right. by eapply missing_defaults_subset. }
  assert (H0 : forall d : dict, exists added,
             d = d ++ added
             /\ forall kv, kv ∈ added ->
                  kv ∈ default_priors \/ kv ∈ default_priors_change_points).
  { intros d. exists []. split; [by rewrite app_nil_r|].
    intros kv Hkv. by apply not_elem_of_nil in Hkv. }
  assert (H1 : exists added,
             dict_at (alter (fill_defaults default_priors) p h) r = dict_at h r ++ added
             /\ forall kv, kv ∈ added ->
                  kv ∈ default_priors \/ kv ∈ default_priors_change_points).
  { destruct (dict_at_alter_cases (fill_defaults default_priors) h p r) as [-> | ->];
      [apply H0 | apply Hp]. }
  unfold validate_outcome. destruct (first_unknown default_priors _); [apply H0|].
  destruct (first_unknown_cp _ cps); cbn [fst]; [exact H1|].
  destruct (dict_at_fill_refs_cases default_priors_change_points cps
              (alter (fill_defaults default_priors) p h) r) as [-> | ->]; [exact H1|].
  destruct H1 as (a1 & -> & Ha1).
  destruct (Hc (dict_at h r ++ a1)) as (a2 & -> & Ha2).
  exists (a1 ++ a2). split; [by rewrite app_assoc|].
  intros kv [Hkv|Hkv]%elem_of_app; auto.
Qed.

(** X1: whichever way the call ends, it leaves every dictionary of the caller
    with the entries it had, in the order they had, followed only by entries
    of the two default tables (lines 55-57 and 63-66 write a key only when it
    is absent); no dictionary is created or dropped besides the one that
    line 35 makes for priors_dic = None, and a dictionary that is neither
    the priors nor a change point is left as it was. *)
Theorem caller_entries_survive_every_call h obs cps d0 T diff priors r :
  let h0 := entry_heap h priors in
  let p := entry_ref h priors in
  let h' := heap (fst (call h obs cps d0 T diff priors)) in
  refs_ok h0 cps p = true ->
  length h' = length h0
  /\ (exists added,
        dict_at h' r = dict_at h0 r ++ added
        /\ forall kv, kv ∈ added ->
             kv ∈ default_priors \/ kv ∈ default_priors_change_points)
  /\ (r <> p -> r ∉ cps -> h' !! r = h0 !! r).
Proof.
  intros h0 p h' Hrefs. subst h'. rewrite call_heap by exact Hrefs. fold h0 p.
  split; [apply validate_outcome_length|].
  split; [apply validate_outcome_appends | apply validate_outcome_frame].
Qed.

Lemma caller_entries_survive_every_call_witness :
  snd (call [[("prior_sigma_μ", VNum 1)]; [("typo", VNum 1)]; []]
            [] [1%nat] 0 30 13 (Some 0%nat))
  = Raise (RuntimeError (unknown_prior_msg "typo"))
  /\ exists added,
       dict_at (heap (fst (call [[("prior_sigma_μ", VNum 1)]; [("typo", VNum 1)]; []]
                                [] [1%nat] 0 30 13 (Some 0%nat)))) 0%nat
       = [("prior_sigma_μ", VNum 1)] ++ added.
Proof.
  split; [vm_compute; reflexivity|].
  destruct (caller_entries_survive_every_call
              [[("prior_sigma_μ", VNum 1)]; [("typo", VNum 1)]; []]
              [] [1%nat] 0 30 13 (Some 0%nat) 0%nat eq_refl)
    as (_ & (added & Hadded & _) & _).
  exists added. exact Hadded.
Defined.

(** X2: when the supplied keys pass lines 52-62, the call leaves the priors
    dictionary as the caller's entries followed by the defaults it lacked, in
    the order of the table of lines 37-44, and each change point as its
    entries followed by the defaults it lacked, in the order of the table of
    lines 45-50. *)
Theorem missing_defaults_appended_in_table_order h obs cps d0 T diff priors :
  let h0 := entry_heap h priors in
  let p := entry_ref h priors in
  let h' := heap (fst (call h obs cps d0 T diff priors)) in
  refs_ok h0 cps p = true ->
  config_ok h0 cps p = true ->
  dict_at h' p = dict_at h0 p ++ missing_defaults default_priors (dict_at h0 p)
  /\ forall r, r ∈ cps ->
       dict_at h' r
       = dict_at h0 r ++ missing_defaults default_priors_change_points (dict_at h0 r).
Proof.
  intros h0 p h' Hrefs Hcfg. subst h'.
  rewrite call_heap_config_ok by assumption. fold h0 p.
  pose proof (config_ok_not_aliased _ _ _ Hcfg) as Hnin.
  apply refs_ok_spec in Hrefs as [Hp Hcps]. split.
  - rewrite (dict_at_lookup _ _ _ (lookup_defaulted_priors h0 cps p Hp Hnin)).
    apply fill_defaults_app, default_priors_NoDup.
  - intros r Hr.
    rewrite (dict_at_lookup _ _ _ (lookup_defaulted_cp h0 cps p r (Hcps r Hr) Hr Hnin)).
    apply fill_defaults_app, default_priors_change_points_NoDup.
Qed.

Lemma missing_defaults_appended_in_table_order_witness :
  dict_at (heap (fst (call [[("prior_sigma_transient_len", VNum 1);
                             (date_key, VDate (day 20))]]
                           [1; 2; 3]%Q [0%nat] (day 0) 40 13 None))) 0%nat
  = [ ("prior_sigma_transient_len", VNum 1);
      (date_key, VDate (day 20));
      ("prior_median_λ", VNum (2 # 5));
      ("prior_sigma_λ", VNum (1 # 2));
      ("prior_sigma_date_begin_transient", VNum 3);
      ("prior_median_transient_len", VNum 3) ].
Proof.
  apply (proj2 (missing_defaults_appended_in_table_order
                  [[("prior_sigma_transient_len", VNum 1); (date_key, VDate (day 20))]]
                  [1; 2; 3]%Q [0%nat] (day 0) 40 13 None eq_refl eq_refl) 0%nat).
  apply list_elem_of_here.
Defined.

(** ** Which unknown key is reported, and what has been written by then *)

Lemma first_unknown_app (defaults : dict) (known : list string) (k : string)
    (rest : list string) :
  forallb (fun k' => dict_mem k' defaults) known = true ->
  dict_mem k defaults = false ->
  first_unknown defaults (known ++ k :: rest) = Some k.
Proof.
  intros Hknown Hk. unfold first_unknown.
  induction known as [|k' known IH]; cbn [app find forallb] in *.
  - by rewrite Hk.
  - apply andb_true_iff in Hknown as [-> Hknown]. cbn [negb]. by apply IH.
Qed.

Lemma first_unknown_cp_app (h : list dict) (cps1 cps2 : list ref) (r : ref)
    (known : list string) (k : string) (rest : list string) :
  forallb (fun r' => all_known default_priors_change_points (dict_at h r')) cps1 = true ->
  dict_keys (dict_at h r) = known ++ k :: rest ->
  forallb (fun k' => dict_mem k' default_priors_change_points) known = true ->
  dict_mem k default_priors_change_points = false ->
  first_unknown_cp h (cps1 ++ r :: cps2) = Some k.
Proof.
  intros Hcps1 Hkeys Hknown Hk.
  induction cps1 as [|r1 cps1 IH]; cbn [app first_unknown_cp forallb] in *.
  - by rewrite Hkeys, first_unknown_app.
  - apply andb_true_iff in Hcps1 as [H1 Hcps1].
    apply first_unknown_none in H1. rewrite H1. by apply IH.
Qed.

Lemma first_unknown_cp_ext (h h' : list dict) (cps : list ref) :
  (forall r, r ∈ cps -> dict_at h r = dict_at h' r) ->
  first_unknown_cp h cps = first_unknown_cp h' cps.
Proof.
  induction cps as [|r cps IH]; intros Hext; [reflexivity|].
  cbn [first_unknown_cp]. rewrite (Hext r) by apply list_elem_of_here.
  rewrite IH; [reflexivity|]. intros r' Hr'. apply Hext. by right.
Qed.

(** X3: lines 52-54 run before anything is written: when the priors
    dictionary holds a key that is not an option name, the error names the
    first such key in the dictionary's own order, and the call ends with
    every dictionary as the caller passed it and no variable declared. *)
Theorem unknown_priors_key_reported_first h obs cps d0 T diff p known k rest :
  refs_ok h cps p = true ->
  dict_keys (dict_at h p) = known ++ k :: rest ->
  forallb (fun k' => dict_mem k' default_priors) known = true ->
  dict_mem k default_priors = false ->
  call h obs cps d0 T diff (Some p)
  = (mkState h [], Raise (RuntimeError (unknown_prior_msg k))).
Proof.
  intros Hrefs Hkeys Hknown Hk. rewrite call_run by exact Hrefs.
  cbn [entry_heap entry_ref]. cbn zeta. unfold validate_outcome.
  by rewrite Hkeys, first_unknown_app.
Qed.

Lemma unknown_priors_key_reported_first_witness :
  call [[("prior_sigma_μ", VNum 1); ("sigma_mu", VNum 1); ("median_mu", VNum 1)];
        [("also_unknown", VNone)]]
       [] [1%nat] 0 30 13 (Some 0%nat)
  = (mkState [[("prior_sigma_μ", VNum 1); ("sigma_mu", VNum 1); ("median_mu", VNum 1)];
              [("also_unknown", VNone)]] [],
     Raise (RuntimeError (unknown_prior_msg "sigma_mu"))).
Proof.
  apply (unknown_priors_key_reported_first _ _ _ _ _ _ _
           ["prior_sigma_μ"] "sigma_mu" ["median_mu"]); reflexivity.
Defined.

(** X4: the change points are checked (lines 59-62) after the priors
    dictionary has received its defaults (lines 55-57) and before any change
    point receives one (lines 63-66). With a recognised priors dictionary
    that is no change point, the error names the first unknown key of the
    first offending change point in list order; the call ends with no
    variable declared, the priors dictionary filled, and every other
    dictionary as it was. *)
Theorem unknown_change_point_key_after_priors_filled
    h obs cps1 r cps2 d0 T diff priors known k rest :
  let h0 := entry_heap h priors in
  let p := entry_ref h priors in
  let cps := cps1 ++ r :: cps2 in
  let res := call h obs cps d0 T diff priors in
  refs_ok h0 cps p = true ->
  all_known default_priors (dict_at h0 p) = true ->
  p ∉ cps ->
  forallb (fun r' => all_known default_priors_change_points (dict_at h0 r')) cps1 = true ->
  dict_keys (dict_at h0 r) = known ++ k :: rest ->
  forallb (fun k' => dict_mem k' default_priors_change_points) known = true ->
  dict_mem k default_priors_change_points = false ->
  snd res = Raise (RuntimeError (unknown_prior_msg k))
  /\ model (fst res) = []
  /\ dict_at (heap (fst res)) p
     = dict_at h0 p ++ missing_defaults default_priors (dict_at h0 p)
  /\ forall r', r' <> p -> heap (fst res) !! r' = h0 !! r'.
Proof.
  intros h0 p cps res Hrefs Hp Hnin Hcps1 Hkeys Hknown Hk.
  assert (Hcall : res = (mkState (alter (fill_defaults default_priors) p h0) [],
                         Raise (RuntimeError (unknown_prior_msg k)))).
  { subst res. rewrite call_run by exact Hrefs. cbn zeta. fold h0 p.
    unfold validate_outcome. apply first_unknown_none in Hp. rewrite Hp.
    rewrite (first_unknown_cp_ext _ h0).
    2:{ intros r' Hr'. apply dict_at_alter_ne. intros ->. contradiction. }
    subst cps. by rewrite (first_unknown_cp_app h0 cps1 cps2 r known k rest). }
  rewrite Hcall. cbn [fst snd heap model].
  apply refs_ok_spec in Hrefs as [Hlt _].
  split; [reflexivity|]. split; [reflexivity|]. split.
  - rewrite dict_at_alter_eq by exact Hlt.
    apply fill_defaults_app, default_priors_NoDup.
  - intros r' Hne. by rewrite list_lookup_alter_ne.
Qed.

Lemma unknown_change_point_key_after_priors_filled_witness :
  snd (call [[(date_key, VDate (day 5))];
             [(date_key, VDate (day 9)); ("prior_sigma_begin_transient", VNum 3)]]
            [] [0; 1]%nat (day 0) 30 13 None)
  = Raise (RuntimeError (unknown_prior_msg "prior_sigma_begin_transient"))
  /\ heap (fst (call [[(date_key, VDate (day 5))];
                      [(date_key, VDate (day 9)); ("prior_sigma_begin_transient", VNum 3)]]
                     [] [0; 1]%nat (day 0) 30 13 None)) !! 0%nat
     = Some [(date_key, VDate (day 5))].
Proof.
  destruct (unknown_change_point_key_after_priors_filled
              [[(date_key, VDate (day 5))];
               [(date_key, VDate (day 9)); ("prior_sigma_begin_transient", VNum 3)]]
              [] [0%nat] 1%nat [] (day 0) 30 13 None
              [date_key] "prior_sigma_begin_transient" []
              eq_refl eq_refl) as (Hres & _ & _ & Hframe).
  - intros Hin. apply elem_of_cons in Hin as [Hx|Hin]; [discriminate Hx|].
    apply elem_of_cons in Hin as [Hx|Hin]; [discriminate Hx|].
    by apply elem_of_nil in Hin.
  - reflexivity.
  - reflexivity.
  - reflexivity.
  - reflexivity.
  - split; [exact Hres|]. apply (Hframe 0%nat). discriminate.
Defined.

(** ** The returned model, read from the caller's dictionaries *)

Lemma length_lam_decls cv (cps : list ref) : length (lam_decls cv cps) = length cps.
Proof. apply length_imap. Qed.

Lemma model_with_lookup_lam pv cv (cps : list ref) obs d0 T diff (i : nat) (r : ref) :
  cps !! i = Some r ->
  model_with pv cv cps obs d0 T diff !! (2 + i)%nat
  = Some (lam_name (i + 1),
          Lognormal (num_of (cv r "prior_median_λ")) (cv r "prior_sigma_λ")).
Proof.
  intros Hi. unfold model_with.
  rewrite lookup_app_r by (cbn [head_decls length]; lia).
  replace (2 + i - length (head_decls pv))%nat with i by (cbn [head_decls length]; lia).
  rewrite lookup_app_l by (rewrite length_lam_decls; by eapply lookup_lt_Some).
  unfold lam_decls. by rewrite list_lookup_imap, Hi.
Qed.

Lemma model_with_lookup_begin pv cv (cps : list ref) obs d0 T diff (i : nat) (r : ref) :
  cps !! i = Some r ->
  model_with pv cv cps obs d0 T diff !! (2 + length cps + i)%nat
  = Some (transient_begin_name i,
          Normal (days_between (secs_of (cv r date_key)) d0)
                 (cv r "prior_sigma_date_begin_transient")).
Proof.
  intros Hi. unfold model_with.
  rewrite lookup_app_r by (cbn [head_decls length]; lia).
  replace (2 + length cps + i - length (head_decls pv))%nat with (length cps + i)%nat
    by (cbn [head_decls length]; lia).
  rewrite lookup_app_r by (rewrite length_lam_decls; lia).
  rewrite length_lam_decls. replace (length cps + i - length cps)%nat with i by lia.
  rewrite lookup_app_l by (unfold begin_decls; rewrite length_imap;
                           by eapply lookup_lt_Some).
  unfold begin_decls. by rewrite list_lookup_imap, Hi.
Qed.

Lemma cfg_absent (defaults d : dict) (k : string) :
  dict_get k d = None -> cfg defaults d k = default VNone (dict_get k defaults).
Proof. unfold cfg, lookup_default. by intros ->. Qed.

Lemma cfg_present (defaults d : dict) (k : string) (v : pyval) :
  dict_get k d = Some v -> cfg defaults d k = v.
Proof. unfold cfg, lookup_default. by intros ->. Qed.

Lemma cfg_date (d : dict) (z : Z) :
  cfg default_priors_change_points d date_key = VDate z <->
  dict_get date_key d = Some (VDate z).
Proof.
  unfold cfg, lookup_default. destruct (dict_get date_key d) as [v|]; cbn.
  - split; congruence.
  - split; discriminate.
Qed.

Lemma cp_date_get (d : dict) (z : Z) :
  cp_date d = Some z <-> dict_get date_key d = Some (VDate z).
Proof.
  unfold cp_date. destruct (dict_get date_key d) as [[q| |z']|]; split; congruence.
Qed.

(** X5: a model that the call returns is a function of the dictionaries the
    caller passed: I_begin and λ_0 from the priors, then for the change
    points in list order λ_1..λ_n, transient_begin_0..n-1 (mean: the whole
    days from date_begin_simulation to the change point's date) and
    transient_len_0..n-1, then μ, delay, σ_obs, the likelihood, λ_t and
    new_cases; each option is read as supplied, and from the default table
    where the caller left it out. *)
Theorem returned_model_reads_configuration h obs cps d0 T diff priors m :
  let h0 := entry_heap h priors in
  let p := entry_ref h priors in
  refs_ok h0 cps p = true ->
  snd (call h obs cps d0 T diff priors) = Ok m ->
  m = model_of_config h0 cps p obs d0 T diff.
Proof.
  intros h0 p Hrefs Hm. by destruct (call_ok_inv _ _ _ _ _ _ _ _ Hrefs Hm) as [_ ?].
Qed.

Lemma returned_model_reads_configuration_witness :
  snd (call [[(date_key, VDate (day 20)); ("prior_median_λ", VNum (1 # 10))]]
            [1; 2; 3]%Q [0%nat] (day 0) 40 13 None)
  = Ok [ ("I_begin", HalfCauchy (VNum 100));
         ("λ_0", Lognormal (2 # 5) (VNum (1 # 2)));
         ("λ_1", Lognormal (1 # 10) (VNum (1 # 2)));
         ("transient_begin_0", Normal 20 (VNum 3));
         ("transient_len_0", Lognormal 3 (VNum (3 # 10)));
         ("μ", Lognormal (1 # 8) (VNum (1 # 5)));
         ("delay", Lognormal 8 (VNum (1 # 5)));
         ("σ_obs", HalfCauchy (VNum 10));
         ("obs", obs_dist 1 40 13 [1; 2; 3]%Q);
         ("λ_t", Deterministic (lam_t_graph 1 40));
         ("new_cases", Deterministic (new_cases_graph 1 40 13)) ].
Proof.
  assert (Hok : exists m,
            snd (call [[(date_key, VDate (day 20)); ("prior_median_λ", VNum (1 # 10))]]
                      [1; 2; 3]%Q [0%nat] (day 0) 40 13 None) = Ok m)
    by (eexists; vm_compute; reflexivity).
  destruct Hok as [m Hm]. rewrite Hm. f_equal.
  rewrite (returned_model_reads_configuration
             [[(date_key, VDate (day 20)); ("prior_median_λ", VNum (1 # 10))]]
             [1; 2; 3]%Q [0%nat] (day 0) 40 13 None m eq_refl Hm).
  vm_compute. reflexivity.
Defined.

(** X6: a call that returns a model was given a configuration in which the
    supplied keys are option names (and the priors dictionary is no change
    point), the delay prior is numeric and passes the two checks of lines
    68-71, the medians given to np.log are numbers, and every change point
    carries a datetime, the dates being non-decreasing in list order. *)
Theorem returned_model_needs_valid_configuration h obs cps d0 T diff priors m :
  let h0 := entry_heap h priors in
  let p := entry_ref h priors in
  refs_ok h0 cps p = true ->
  snd (call h obs cps d0 T diff priors) = Ok m ->
  call_returns h0 cps p obs T diff.
Proof.
  intros h0 p Hrefs Hm. by destruct (call_ok_inv _ _ _ _ _ _ _ _ Hrefs Hm) as [? _].
Qed.

Lemma returned_model_needs_valid_configuration_witness :
  call_returns (entry_heap [[(date_key, VDate (day 20))]; [(date_key, VDate (day 20))]] None)
               [0; 1]%nat 2%nat [1; 2; 3]%Q 40 13.
Proof.
  assert (Hok : exists m,
            snd (call [[(date_key, VDate (day 20))]; [(date_key, VDate (day 20))]]
                      [1; 2; 3]%Q [0; 1]%nat (day 0) 40 13 None) = Ok m)
    by (eexists; vm_compute; reflexivity).
  destruct Hok as [m Hm].
  apply (returned_model_needs_valid_configuration
           [[(date_key, VDate (day 20))]; [(date_key, VDate (day 20))]]
           [1; 2; 3]%Q [0; 1]%nat (day 0) 40 13 None m eq_refl Hm).
Defined.

(** X7: the default median of a change point's rate λ_(i+1) is the constant
    0.4 of the table of lines 37-44 (line 45 reads default_priors, not
    priors_dic): a change point that leaves out 'prior_median_λ' and
    'prior_sigma_λ' gets Lognormal(log 0.4, 0.5) whatever the caller put
    under 'prior_median_λ_0' and 'prior_sigma_λ_0'. *)
Theorem change_point_rate_default_is_table_constant h obs cps d0 T diff priors m i r :
  let h0 := entry_heap h priors in
  let p := entry_ref h priors in
  refs_ok h0 cps p = true ->
  snd (call h obs cps d0 T diff priors) = Ok m ->
  cps !! i = Some r ->
  dict_get "prior_median_λ" (dict_at h0 r) = None ->
  dict_get "prior_sigma_λ" (dict_at h0 r) = None ->
  m !! (2 + i)%nat = Some (lam_name (i + 1), Lognormal (2 # 5) (VNum (1 # 2))).
Proof.
  intros h0 p Hrefs Hm Hi Hmed Hsig.
  destruct (call_ok_inv _ _ _ _ _ _ _ _ Hrefs Hm) as [_ ->].
  unfold model_of_config. rewrite (model_with_lookup_lam _ _ _ _ _ _ _ _ _ Hi).
  by rewrite !cfg_absent by assumption.
Qed.

Lemma change_point_rate_default_is_table_constant_witness :
  exists m,
    snd (call [[("prior_median_λ_0", VNum (9 # 10)); ("prior_sigma_λ_0", VNum 2)];
               [(date_key, VDate (day 20))]]
              [1; 2; 3]%Q [1%nat] (day 0) 40 13 (Some 0%nat)) = Ok m
    /\ m !! 1%nat = Some ("λ_0", Lognormal (9 # 10) (VNum 2))
    /\ m !! 2%nat = Some ("λ_1", Lognormal (2 # 5) (VNum (1 # 2))).
Proof.
  assert (Hok : exists m,
            snd (call [[("prior_median_λ_0", VNum (9 # 10)); ("prior_sigma_λ_0", VNum 2)];
                       [(date_key, VDate (day 20))]]
                      [1; 2; 3]%Q [1%nat] (day 0) 40 13 (Some 0%nat)) = Ok m
            /\ m !! 1%nat = Some ("λ_0", Lognormal (9 # 10) (VNum 2)))
    by (eexists; split; vm_compute; reflexivity).
  destruct Hok as (m & Hm & H0). exists m. split; [exact Hm|]. split; [exact H0|].
  apply (change_point_rate_default_is_table_constant
           [[("prior_median_λ_0", VNum (9 # 10)); ("prior_sigma_λ_0", VNum 2)];
            [(date_key, VDate (day 20))]]
           [1; 2; 3]%Q [1%nat] (day 0) 40 13 (Some 0%nat) m 0%nat 1%nat);
    (exact Hm || reflexivity).
Defined.

(** X8: in a call that returns a model every change point carries a
    datetime under 'prior_mean_date_begin_transient', and the prior mean of
    transient_begin_i is the number of whole days from date_begin_simulation
    to that date, rounded towards minus infinity as timedelta.days is
    (line 92); a date before the start of the simulation gives a negative
    mean and is not rejected. The standard deviation is read under
    'prior_sigma_date_begin_transient'. *)
Theorem transient_begin_mean_is_whole_days h obs cps d0 T diff priors m i r :
  let h0 := entry_heap h priors in
  let p := entry_ref h priors in
  refs_ok h0 cps p = true ->
  snd (call h obs cps d0 T diff priors) = Ok m ->
  cps !! i = Some r ->
  exists z mu,
    dict_get date_key (dict_at h0 r) = Some (VDate z)
    /\ m !! (2 + length cps + i)%nat
       = Some (transient_begin_name i,
               Normal mu (cfg default_priors_change_points (dict_at h0 r)
                              "prior_sigma_date_begin_transient"))
    /\ (86400 * mu <= z - d0 < 86400 * (mu + 1))%Z.
Proof.
  intros h0 p Hrefs Hm Hi.
  destruct (call_ok_inv _ _ _ _ _ _ _ _ Hrefs Hm)
    as [(_ & _ & _ & _ & dates & Hdates & _) ->].
  assert (Hz : exists z, cp_date (dict_at h0 r) = Some z).
  { apply (f_equal (fun l => l !! i)) in Hdates.
    rewrite !list_lookup_fmap, Hi in Hdates. cbn in Hdates.
    destruct (dates !! i) as [z|]; [|discriminate Hdates]. exists z.
    cbn in Hdates. injection Hdates as Hd. exact Hd. }
  destruct Hz as [z Hz]. apply cp_date_get in Hz.
  exists z, (days_between z d0). split; [exact Hz|]. split.
  - unfold model_of_config. rewrite (model_with_lookup_begin _ _ _ _ _ _ _ _ _ Hi).
    by rewrite (cfg_present _ _ _ _ Hz).
  - unfold days_between.
    pose proof (Z.div_mod (z - d0) 86400 ltac:(lia)) as Hdm.
    pose proof (Z.mod_pos_bound (z - d0) 86400 ltac:(lia)) as Hmod. lia.
Qed.

Lemma transient_begin_mean_is_whole_days_witness :
  exists m,
    snd (call [[(date_key, VDate (day 3 - 1))]] [1; 2; 3]%Q [0%nat] (day 5) 40 13 None)
    = Ok m
    /\ m !! 3%nat = Some ("transient_begin_0", Normal (-3) (VNum 3)).
Proof.
  assert (Hok : exists m,
            snd (call [[(date_key, VDate (day 3 - 1))]] [1; 2; 3]%Q [0%nat] (day 5) 40 13
                      None) = Ok m)
    by (eexists; vm_compute; reflexivity).
  destruct Hok as [m Hm]. exists m. split; [exact Hm|].
  destruct (transient_begin_mean_is_whole_days
              [[(date_key, VDate (day 3 - 1))]] [1; 2; 3]%Q [0%nat] (day 5) 40 13 None
              m 0%nat 0%nat eq_refl Hm eq_refl) as (z & mu & Hz & Hlook & Hmu).
  injection Hz as <-.
  assert (Hval : mu = (-3)%Z) by (unfold day in Hmu; lia).
  rewrite Hval in Hlook. exact Hlook.
Defined.

(** ** Where the ordering error leaves the model *)

Lemma lam_decls_ext cv cv' (cps : list ref) :
  (forall r k, r ∈ cps -> cv r k = cv' r k) -> lam_decls cv cps = lam_decls cv' cps.
Proof.
  intros Hc. unfold lam_decls. apply imap_ext. intros i r Hi.
  by rewrite !(Hc r _ (list_elem_of_lookup_2 _ _ _ Hi)).
Qed.

Lemma begin_decls_ext cv cv' d0 (cps : list ref) :
  (forall r k, r ∈ cps -> cv r k = cv' r k) ->
  begin_decls cv d0 cps = begin_decls cv' d0 cps.
Proof.
  intros Hc. unfold begin_decls. apply imap_ext. intros i r Hi.
  by rewrite !(Hc r _ (list_elem_of_lookup_2 _ _ _ Hi)).
Qed.

(** X9: the ordering of the dates is checked while the graph is being built
    (line 90), not with the other checks: when the call ends in the ordering
    error, two neighbours of the list have the later one's date strictly
    before the earlier one's, and I_begin, λ_0, every λ_1..λ_n and the
    transient_begin variables up to the earlier neighbour have already been
    declared in the model context. *)
Theorem ordering_error_after_rate_declarations h obs cps d0 T diff priors :
  let h0 := entry_heap h priors in
  let p := entry_ref h priors in
  let res := call h obs cps d0 T diff priors in
  let pv := cfg default_priors (dict_at h0 p) in
  let cv := fun r => cfg default_priors_change_points (dict_at h0 r) in
  refs_ok h0 cps p = true ->
  snd res = Raise (RuntimeError ordering_msg) ->
  exists j r1 r2 z1 z2,
    cps !! j = Some r1 /\ cps !! S j = Some r2
    /\ dict_get date_key (dict_at h0 r1) = Some (VDate z1)
    /\ dict_get date_key (dict_at h0 r2) = Some (VDate z2)
    /\ (z2 < z1)%Z
    /\ model (fst res)
       = head_decls pv ++ lam_decls cv cps ++ begin_decls cv d0 (take (S j) cps).
Proof.
  intros h0 p res pv cv Hrefs Hres.
  assert (Hcfg : config_ok h0 cps p = true).
  { destruct (config_ok h0 cps p) eqn:Hcfg; [reflexivity|].
    destruct (call_config_bad h obs cps d0 T diff priors Hrefs Hcfg) as (h1 & k & Hc).
    subst res. rewrite Hc in Hres. injection Hres as Hres.
    by destruct (unknown_prior_msg_fresh k) as (_ & _ & Ho). }
  pose proof (config_ok_not_aliased _ _ _ Hcfg) as Hnin.
  apply refs_ok_spec in Hrefs as Hlt. destruct Hlt as [Hp Hcps].
  subst res. rewrite call_config_ok in Hres |- * by assumption. fold h0 p in Hres |- *.
  destruct (horizon_outcome (defaulted h0 cps p) obs T diff p) as [[]|e] eqn:Hh.
  2:{ cbn [snd] in Hres. injection Hres as ->.
      apply horizon_runtime_error in Hh as [Hx|Hx]; discriminate Hx. }
  destruct (build_model_trace obs cps d0 T diff p (defaulted h0 cps p) []) as [_ Ht].
  rewrite Hres in Ht.
  destruct Ht as (_ & j & r1 & r2 & z1 & z2 & Hj & HSj & Hz1 & Hz2 & Hlt & Hmodel).
  assert (Hr1 : r1 ∈ cps) by (by eapply list_elem_of_lookup_2).
  assert (Hr2 : r2 ∈ cps) by (by eapply list_elem_of_lookup_2).
  rewrite item_defaulted_cp in Hz1, Hz2 by auto.
  apply cfg_date in Hz1, Hz2.
  exists j, r1, r2, z1, z2. repeat (split; [assumption|]).
  rewrite Hmodel. f_equal; [|f_equal].
  - unfold head_decls. by rewrite !item_defaulted_priors.
  - apply lam_decls_ext. intros r k Hr. apply item_defaulted_cp; auto.
  - apply begin_decls_ext. intros r k Hr.
    apply elem_of_take in Hr as (i & Hi & _). apply list_elem_of_lookup_2 in Hi.
    apply item_defaulted_cp; auto.
Qed.

Lemma ordering_error_after_rate_declarations_witness :
  map fst (model (fst (call [[(date_key, VDate (day 20))]; [(date_key, VDate (day 10))]]
                            [1; 2; 3]%Q [0; 1]%nat (day 0) 30 13 None)))
  = ["I_begin"; "λ_0"; "λ_1"; "λ_2"; "transient_begin_0"].
Proof.
  destruct (ordering_error_after_rate_declarations
              [[(date_key, VDate (day 20))]; [(date_key, VDate (day 10))]]
              [1; 2; 3]%Q [0; 1]%nat (day 0) 30 13 None eq_refl)
    as (j & r1 & r2 & z1 & z2 & Hj & HSj & _ & _ & _ & Hmodel).
  - vm_compute. reflexivity.
  - destruct j as [|[|j]]; [|discriminate HSj|discriminate HSj].
    rewrite Hmodel. vm_compute. reflexivity.
Defined.

(** ** Errors other than the four checks *)

Lemma date_scan_raise (date_before : pyval) (dates : list pyval) (e : exn) :
  date_scan date_before dates = Raise e ->
  e = TypeError \/ e = RuntimeError ordering_msg.
Proof.
  revert date_before. induction dates as [|v dates IH]; intros date_before;
    [intros Hx; discriminate Hx|].
  cbn [date_scan].
  destruct (match date_before with VNone => Ok false | _ => gt_outcome date_before v end)
    as [[|]|e'] eqn:Hcmp.
  - intros [= <-]. by right.
  - destruct v as [q| |z]; [intros [= <-]; by left | intros [= <-]; by left | apply IH].
  - intros [= <-]. left.
    destruct date_before; try discriminate Hcmp; by apply gt_outcome_raise in Hcmp.
Qed.

Lemma build_result_raise (h : list dict) (cps : list ref) (p : ref) (e : exn) :
  build_result h cps p = Raise e -> e = TypeError \/ e = RuntimeError ordering_msg.
Proof.
  unfold build_result.
  destruct (negb (is_num (read_item h p "prior_median_λ_0"))); [intros [= <-]; by left|].
  destruct (negb (forallb _ cps)); [intros [= <-]; by left|].
  destruct (date_scan VNone _) as [[]|e'] eqn:Hscan.
  - destruct (negb (forallb _ cps)); [intros [= <-]; by left|].
    destruct (negb (is_num (read_item h p "prior_median_μ"))); [intros [= <-]; by left|].
    destruct (negb (is_num (read_item h p "prior_median_delay")));
      [intros [= <-]; by left | intros Hx; discriminate Hx].
  - intros [= <-]. by eapply date_scan_raise.
Qed.

(** X10: no read of an option fails. With references that point into the
    heap, a call that ends in an exception does not end in a KeyError:
    lines 55-66 have put every option that lines 68-127 read into the
    dictionaries. *)
Theorem call_raises_no_key_error h obs cps d0 T diff priors e :
  let h0 := entry_heap h priors in
  let p := entry_ref h priors in
  refs_ok h0 cps p = true ->
  snd (call h obs cps d0 T diff priors) = Raise e ->
  forall k, e <> KeyError k.
Proof.
  intros h0 p Hrefs Hres k ->.
  destruct (config_ok h0 cps p) eqn:Hcfg.
  - rewrite call_config_ok in Hres by assumption. fold h0 p in Hres.
    pose proof (horizon_outcome_defaulted h0 cps p obs T diff Hrefs Hcfg) as Hh.
    destruct (horizon_outcome (defaulted h0 cps p) obs T diff p) as [[]|e'] eqn:Hho.
    + pose proof (build_model_result obs cps d0 T diff p (defaulted h0 cps p) []
                    (reads_ok_defaulted _ _ _ Hrefs Hcfg)) as Hb.
      unfold wp, result_post in Hb.
      destruct (build_result (defaulted h0 cps p) cps p) as [[]|e'] eqn:Hbr.
      * destruct Hb as [m Hb]. rewrite Hb in Hres. discriminate Hres.
      * rewrite Hb in Hres. injection Hres as ->.
        apply build_result_raise in Hbr as [Hx|Hx]; discriminate Hx.
    + cbn [snd] in Hres. injection Hres as ->.
      destruct (delay_prior (dict_at h0 p)) as [[a c]|]; [|discriminate Hh].
      destruct (Qltb _ _); [discriminate Hh|].
      destruct (T <? _)%Z; discriminate Hh.
  - destruct (call_config_bad h obs cps d0 T diff priors Hrefs Hcfg) as (h1 & k' & Hc).
    rewrite Hc in Hres. discriminate Hres.
Qed.

Lemma call_raises_no_key_error_witness :
  exists e,
    snd (call [[(date_key, VDate (day 20)); ("prior_median_transient_len", VNone)]]
              [1; 2; 3]%Q [0%nat] (day 0) 40 13 None) = Raise e
    /\ forall k, e <> KeyError k.
Proof.
  assert (Hraise : exists e,
            snd (call [[(date_key, VDate (day 20)); ("prior_median_transient_len", VNone)]]
                      [1; 2; 3]%Q [0%nat] (day 0) 40 13 None) = Raise e)
    by (eexists; vm_compute; reflexivity).
  destruct Hraise as [e He]. exists e. split; [exact He|].
  apply (call_raises_no_key_error
           [[(date_key, VDate (day 20)); ("prior_median_transient_len", VNone)]]
           [1; 2; 3]%Q [0%nat] (day 0) 40 13 None e eq_refl He).
Defined.

(** X11: a delay prior that is no number (None or a datetime under
    'prior_median_delay' or 'prior_sigma_delay') passes lines 52-57 and ends
    the call at line 68 in a TypeError, whatever diff_data_sim, num_days_sim
    and the data are; by then the defaults have been written into the
    caller's dictionaries and no variable has been declared. *)
Theorem non_numeric_delay_prior_is_a_type_error h obs cps d0 T diff priors k v :
  let h0 := entry_heap h priors in
  let p := entry_ref h priors in
  refs_ok h0 cps p = true ->
  config_ok h0 cps p = true ->
  k = "prior_median_delay" \/ k = "prior_sigma_delay" ->
  dict_get k (dict_at h0 p) = Some v ->
  (forall q, v <> VNum q) ->
  call h obs cps d0 T diff priors = (mkState (defaulted h0 cps p) [], Raise TypeError).
Proof.
  intros h0 p Hrefs Hcfg Hk Hv Hnum.
  rewrite call_config_ok by assumption. fold h0 p.
  rewrite horizon_outcome_defaulted by assumption.
  assert (Hd : delay_prior (dict_at h0 p) = None).
  { unfold delay_prior, lookup_default.
    destruct Hk as [-> | ->]; rewrite Hv.
    - destruct v as [q| |z]; [by destruct (Hnum q) | reflexivity | reflexivity].
    - destruct (match dict_get "prior_median_delay" (dict_at h0 p) with
                | Some v0 => Some v0
                | None => dict_get "prior_median_delay" default_priors
                end) as [[a| |za]|]; try reflexivity.
      destruct v as [q| |z]; [by destruct (Hnum q) | reflexivity | reflexivity]. }
  by rewrite Hd.
Qed.

Lemma non_numeric_delay_prior_is_a_type_error_witness :
  snd (call [[("prior_sigma_delay", VNone)]] [1; 2; 3]%Q [] (day 0) 40 13 (Some 0%nat))
  = Raise TypeError
  /\ dict_mem "prior_beta_σ_obs"
       (dict_at (heap (fst (call [[("prior_sigma_delay", VNone)]] [1; 2; 3]%Q []
                                 (day 0) 40 13 (Some 0%nat)))) 0%nat) = true.
Proof.
  rewrite (non_numeric_delay_prior_is_a_type_error
             [[("prior_sigma_delay", VNone)]] [1; 2; 3]%Q [] (day 0) 40 13 (Some 0%nat)
             "prior_sigma_delay" VNone eq_refl eq_refl (or_intror eq_refl) eq_refl).
  - split; reflexivity.
  - intros q Hq. discriminate Hq.
Defined.

(** X12: with the delay prior left at its defaults (median 8, sigma 0.2) the
    bound of line 68 is 12.8 days: the call ends in the lead-time error
    exactly when diff_data_sim is 12 or less. *)
Theorem default_delay_prior_needs_thirteen_days h obs cps d0 T diff priors :
  let h0 := entry_heap h priors in
  let p := entry_ref h priors in
  refs_ok h0 cps p = true ->
  config_ok h0 cps p = true ->
  dict_get "prior_median_delay" (dict_at h0 p) = None ->
  dict_get "prior_sigma_delay" (dict_at h0 p) = None ->
  snd (call h obs cps d0 T diff priors) = Raise (RuntimeError lead_time_msg)
  <-> (diff <= 12)%Z.
Proof.
  intros h0 p Hrefs Hcfg Hmed Hsig.
  rewrite call_config_ok by assumption. fold h0 p.
  rewrite horizon_outcome_defaulted by assumption.
  assert (Hd : delay_prior (dict_at h0 p) = Some (8%Q, (1 # 5)%Q)).
  { unfold delay_prior, lookup_default. by rewrite Hmed, Hsig. }
  rewrite Hd.
  assert (Hlt : Qltb (inject_Z diff) (lead_time_bound 8 (1 # 5)) = true <-> (diff <= 12)%Z).
  { rewrite Qltb_lt. unfold lead_time_bound, Qlt. cbn. lia. }
  destruct (Qltb (inject_Z diff) (lead_time_bound 8 (1 # 5))).
  - split; [intros _; by apply Hlt | reflexivity].
  - split; [|intros Hx; apply Hlt in Hx; discriminate Hx].
    destruct (T <? _)%Z; [intros Hx; discriminate Hx|].
    intros Hx. apply build_model_runtime_error in Hx. discriminate Hx.
Qed.

Lemma default_delay_prior_needs_thirteen_days_witness :
  snd (call [] [1; 2; 3]%Q [] (day 0) 40 12 None) = Raise (RuntimeError lead_time_msg)
  /\ snd (call [] [1; 2; 3]%Q [] (day 0) 40 13 None) <> Raise (RuntimeError lead_time_msg).
Proof.
  split.
  - apply (proj2 (default_delay_prior_needs_thirteen_days
                    [] [1; 2; 3]%Q [] (day 0) 40 12 None eq_refl eq_refl eq_refl eq_refl)).
    lia.
  - intros Hx.
    apply (proj1 (default_delay_prior_needs_thirteen_days
                    [] [1; 2; 3]%Q [] (day 0) 40 13 None eq_refl eq_refl eq_refl eq_refl))
      in Hx.
    lia.
Defined.

(** X13: a returned model was built for data that fit the simulation: the
    delay prior is numeric, diff_data_sim is at least median + 3 * median *
    sigma, and len(new_cases_obs) is at most num_days_sim - diff_data_sim,
    the length asked of _delay_cases (line 140); so the slice
    [:num_days_data] of lines 149-150 never runs past the delayed series. *)
Theorem returned_model_covers_the_data h obs cps d0 T diff priors m :
  let h0 := entry_heap h priors in
  let p := entry_ref h priors in
  refs_ok h0 cps p = true ->
  snd (call h obs cps d0 T diff priors) = Ok m ->
  (Z.of_nat (length obs) <= T - diff)%Z
  /\ (exists median sigma,
        delay_prior (dict_at h0 p) = Some (median, sigma)
        /\ (lead_time_bound median sigma <= inject_Z diff)%Q)
  /\ exists new_I delay,
       In ("new_cases", Deterministic (TDelayCases new_I T (T - diff) delay diff)) m
       /\ In ("obs",
              StudentT 4 (TSlice (TDelayCases new_I T (T - diff) delay diff) (length obs))
                (obs_scale_graph
                   (TSlice (TDelayCases new_I T (T - diff) delay diff) (length obs)))
                obs) m.
Proof.
  intros h0 p Hrefs Hm.
  destruct (call_ok_inv _ _ _ _ _ _ _ _ Hrefs Hm) as [(_ & Hh & _) _].
  fold h0 p in Hh. unfold horizon_ok in Hh.
  destruct (delay_prior (dict_at h0 p)) as [[a c]|]; [|discriminate Hh].
  apply andb_true_iff in Hh as [Hlead Hhor].
  apply negb_true_iff in Hlead, Hhor. apply Z.ltb_ge in Hhor.
  split; [lia|]. split.
  - exists a, c. split; [reflexivity|].
    apply Qnot_lt_le. intros Hlt. apply Qltb_lt in Hlt. congruence.
  - destruct (registered_obs _ _ _ _ _ _ _ _ Hm) as [Hobs Hnew].
    eexists _, _. split; [exact Hnew | exact Hobs].
Qed.

Lemma returned_model_covers_the_data_witness :
  (Z.of_nat (length [1; 2; 3]%Q) <= 40 - 13)%Z
  /\ exists m, snd (call [] [1; 2; 3]%Q [] (day 0) 40 13 None) = Ok m.
Proof.
  assert (Hok : exists m, snd (call [] [1; 2; 3]%Q [] (day 0) 40 13 None) = Ok m)
    by (eexists; vm_compute; reflexivity).
  split; [|exact Hok]. destruct Hok as [m Hm].
  apply (returned_model_covers_the_data [] [1; 2; 3]%Q [] (day 0) 40 13 None m eq_refl Hm).
Defined.

(** ** Calling again, and calling with nothing configured *)

Lemma defaulted_idem (h : list dict) (cps : list ref) (p : ref) :
  refs_ok h cps p = true -> p ∉ cps ->
  defaulted (defaulted h cps p) cps p = defaulted h cps p.
Proof.
  intros [Hp Hcps]%refs_ok_spec Hnin. apply list_eq. intros i.
  destruct (decide (i = p)) as [->|Hne].
  - rewrite lookup_defaulted_priors by (rewrite ?length_defaulted; assumption).
    rewrite (dict_at_lookup _ _ _ (lookup_defaulted_priors h cps p Hp Hnin)).
    by rewrite fill_defaults_idem, lookup_defaulted_priors.
  - destruct (decide (i ∈ cps)) as [Hin|Hout].
    + rewrite lookup_defaulted_cp by (rewrite ?length_defaulted; auto).
      rewrite (dict_at_lookup _ _ _ (lookup_defaulted_cp h cps p i (Hcps i Hin) Hin Hnin)).
      by rewrite fill_defaults_idem, lookup_defaulted_cp by auto.
    + by rewrite !lookup_defaulted_other.
Qed.

Lemma config_ok_defaulted (h : list dict) (cps : list ref) (p : ref) :
  refs_ok h cps p = true -> config_ok h cps p = true ->
  refs_ok (defaulted h cps p) cps p = true
  /\ config_ok (defaulted h cps p) cps p = true.
Proof.
  intros Hrefs Hcfg.
  pose proof (config_ok_not_aliased _ _ _ Hcfg) as Hnin.
  apply refs_ok_spec in Hrefs as Hlt. destruct Hlt as [Hp Hcps].
  assert (Hrefs' : refs_ok (defaulted h cps p) cps p = true).
  { apply refs_ok_spec. rewrite length_defaulted. by split. }
  split; [exact Hrefs'|].
  apply (rerun_reads h (defaulted h cps p) cps p p Hrefs Hcfg Hrefs' Hnin).
  - rewrite (dict_at_lookup _ _ _ (lookup_defaulted_priors h cps p Hp Hnin)).
    rewrite all_known_fill. unfold config_ok in Hcfg.
    by apply andb_true_iff in Hcfg as [[? _]%andb_true_iff _].
  - intros k. rewrite (dict_at_lookup _ _ _ (lookup_defaulted_priors h cps p Hp Hnin)).
    apply lookup_default_fill.
  - reflexivity.
Qed.

Lemma dict_at_fresh (h : list dict) (d : dict) : dict_at (h ++ [d]) (length h) = d.
Proof. unfold dict_at. by rewrite lookup_app_r, Nat.sub_diag by lia. Qed.

(** X14: once a call has passed lines 52-62, calling again with the same
    priors dictionary and change points, on the dictionaries as that call
    left them, writes nothing: every key that lines 55-66 would set is
    there already. The data, the dates and the horizon of the second call
    may differ, and it may end in any way. *)
Theorem second_call_writes_nothing h obs cps d0 T diff priors obs' d0' T' diff' :
  let h0 := entry_heap h priors in
  let p := entry_ref h priors in
  let h1 := heap (fst (call h obs cps d0 T diff priors)) in
  refs_ok h0 cps p = true ->
  config_ok h0 cps p = true ->
  heap (fst (call h1 obs' cps d0' T' diff' (Some p))) = h1.
Proof.
  intros h0 p h1 Hrefs Hcfg. subst h1.
  rewrite (call_heap_config_ok h obs cps d0 T diff priors Hrefs Hcfg). fold h0 p.
  destruct (config_ok_defaulted h0 cps p Hrefs Hcfg) as [Hrefs' Hcfg'].
  rewrite (call_heap_config_ok (defaulted h0 cps p) obs' cps d0' T' diff' (Some p)
             Hrefs' Hcfg').
  cbn [entry_heap entry_ref]. apply defaulted_idem; [exact Hrefs|].
  exact (config_ok_not_aliased _ _ _ Hcfg).
Qed.

Lemma second_call_writes_nothing_witness :
  heap (fst (call (heap (fst (call [[(date_key, VDate (day 20))]]
                                   [1; 2; 3]%Q [0%nat] (day 0) 40 13 None)))
                  [4; 5]%Q [0%nat] (day 30) 20 0 (Some 1%nat)))
  = heap (fst (call [[(date_key, VDate (day 20))]] [1; 2; 3]%Q [0%nat] (day 0) 40 13 None)).
Proof.
  apply (second_call_writes_nothing
           [[(date_key, VDate (day 20))]] [1; 2; 3]%Q [0%nat] (day 0) 40 13 None
           [4; 5]%Q (day 30) 20 0); reflexivity.
Defined.

(** X15: for any number of change points, the λ_t of a returned model is, at
    every day t, the sum over the change points of the smooth step of
    change point i times (λ_(i+1) - λ_0): every increment is measured from
    λ_0 (line 110 is never updated in the loop of lines 111-117) and λ_0
    itself is no term of the sum (line 118). *)
Theorem registered_rate_is_sum_of_increments h obs cps d0 T diff priors m :
  snd (call h obs cps d0 T diff priors) = Ok m ->
  exists lam_t,
    In ("λ_t", Deterministic lam_t) m
    /\ forall rv smooth_step sir delay_cases (t : nat),
         denote rv smooth_step sir delay_cases lam_t t
         = fold_right (fun i r =>
               (smooth_step 0 1 (rv (transient_begin_name i))
                            (rv (transient_begin_name i) + rv (transient_len_name i)) T t
                * (rv (lam_name (i + 1)) - rv "λ_0") + r)%R)
             0%R (seq 0 (length cps)).
Proof.
  intros Hm. exists (lam_t_graph (length cps) T).
  split; [by eapply registered_lam_t|].
  intros rv ss sir dc t. apply denote_lam_t_graph.
Qed.

Lemma registered_rate_is_sum_of_increments_witness :
  exists m lam_t,
    snd (call [[(date_key, VDate (day 20))]; [(date_key, VDate (day 30))];
               [(date_key, VDate (day 35))]]
              [1; 2; 3]%Q [0; 1; 2]%nat (day 0) 40 13 None) = Ok m
    /\ In ("λ_t", Deterministic lam_t) m
    /\ forall rv ss sir dc (t : nat),
         denote rv ss sir dc lam_t t
         = (ss 0 1 (rv "transient_begin_0")
               (rv "transient_begin_0" + rv "transient_len_0") 40%Z t
            * (rv "λ_1" - rv "λ_0")
            + (ss 0 1 (rv "transient_begin_1")
                  (rv "transient_begin_1" + rv "transient_len_1") 40%Z t
               * (rv "λ_2" - rv "λ_0")
               + (ss 0 1 (rv "transient_begin_2")
                     (rv "transient_begin_2" + rv "transient_len_2") 40%Z t
                  * (rv "λ_3" - rv "λ_0") + 0)))%R.
Proof.
  assert (Hok : exists m,
            snd (call [[(date_key, VDate (day 20))]; [(date_key, VDate (day 30))];
                       [(date_key, VDate (day 35))]]
                      [1; 2; 3]%Q [0; 1; 2]%nat (day 0) 40 13 None) = Ok m)
    by (eexists; vm_compute; reflexivity).
  destruct Hok as [m Hm].
  destruct (registered_rate_is_sum_of_increments _ _ _ _ _ _ _ _ Hm)
    as (lam_t & Hin & Hden).
  exists m, lam_t. split; [exact Hm|]. split; [exact Hin|].
  intros rv ss sir dc t. rewrite Hden. reflexivity.
Defined.

(** X16: called with no change point and priors_dic = None, the function
    makes its own dictionary (line 35), fills it with the eight defaults in
    the order of lines 37-44 and touches no dictionary of the caller,
    however the call ends. It ends in the lead-time error exactly when
    diff_data_sim is 12 or less, and in the horizon error exactly when
    diff_data_sim is at least 13 and num_days_sim is below
    len(new_cases_obs) + diff_data_sim; a model is returned only when
    diff_data_sim is at least 13 and the horizon covers the data. *)
Theorem unconfigured_call h obs d0 T diff :
  let res := call h obs [] d0 T diff None in
  heap (fst res) = h ++ [default_priors]
  /\ (snd res = Raise (RuntimeError lead_time_msg) <-> (diff <= 12)%Z)
  /\ (snd res = Raise (RuntimeError horizon_msg)
      <-> (13 <= diff)%Z /\ (T < Z.of_nat (length obs) + diff)%Z)
  /\ forall m, snd res = Ok m ->
       (13 <= diff)%Z /\ (Z.of_nat (length obs) + diff <= T)%Z.
Proof.
  intros res.
  assert (Hrefs : refs_ok (entry_heap h None) [] (entry_ref h None) = true).
  { apply refs_ok_spec. cbn [entry_heap entry_ref]. rewrite length_app. cbn [length].
    split; [lia|]. intros r Hr. by apply elem_of_nil in Hr. }
  assert (Hcfg : config_ok (entry_heap h None) [] (entry_ref h None) = true).
  { unfold config_ok. cbn [entry_heap entry_ref forallb]. rewrite dict_at_fresh.
    rewrite bool_decide_eq_false_2 by apply not_elem_of_nil. reflexivity. }
  split.
  { subst res. rewrite call_heap_config_ok by assumption.
    cbn [entry_heap entry_ref]. unfold defaulted, fill_refs. cbn [fold_left].
    replace (length h) with (length h + 0)%nat at 1 by lia.
    rewrite alter_app_r. reflexivity. }
  subst res. rewrite call_config_ok by assumption.
  rewrite horizon_outcome_defaulted by assumption.
  cbn [entry_heap entry_ref]. rewrite dict_at_fresh.
  change (delay_prior []) with (Some (8%Q, (1 # 5)%Q)). cbn iota.
  assert (Hlt : Qltb (inject_Z diff) (lead_time_bound 8 (1 # 5)) = true <-> (diff <= 12)%Z).
  { rewrite Qltb_lt. unfold lead_time_bound, Qlt. cbn. lia. }
  destruct (Qltb (inject_Z diff) (lead_time_bound 8 (1 # 5))).
  { assert (Hd : (diff <= 12)%Z) by (by apply Hlt). cbn [snd].
    split; [tauto|]. split; [|intros m Hx; discriminate Hx].
    split; [intros Hx; discriminate Hx | lia]. }
  assert (Hd : (13 <= diff)%Z).
  { destruct (Z_le_gt_dec diff 12) as [Hle|Hgt]; [|lia].
    apply Hlt in Hle. discriminate Hle. }
  destruct (T <? Z.of_nat (length obs) + diff)%Z eqn:Hshort; cbn [snd].
  - apply Z.ltb_lt in Hshort.
    split; [split; [intros Hx; discriminate Hx | lia]|].
    split; [tauto | intros m Hx; discriminate Hx].
  - apply Z.ltb_ge in Hshort. split; [|split].
    + split; [|lia]. intros Hx. apply build_model_runtime_error in Hx. discriminate Hx.
    + split; [|lia]. intros Hx. apply build_model_runtime_error in Hx. discriminate Hx.
    + intros m _. lia.
Qed.

Lemma unconfigured_call_witness :
  heap (fst (call [[("kept", VNone)]] [1; 2; 3]%Q [] (day 0) 15 13 None))
  = [[("kept", VNone)]; default_priors]
  /\ snd (call [[("kept", VNone)]] [1; 2; 3]%Q [] (day 0) 15 13 None)
     = Raise (RuntimeError horizon_msg).
Proof.
  destruct (unconfigured_call [[("kept", VNone)]] [1; 2; 3]%Q (day 0) 15 13)
    as (Hheap & _ & Hhor & _).
  split; [exact Hheap|]. apply Hhor. cbn. lia.
Defined.

(** X17: the docstring (line 19) names the standard deviation of the
    transition date 'prior_sigma_begin_transient'; the table of lines 45-50
    has it as 'prior_sigma_date_begin_transient'. A change point that holds
    the documented key never gives a model: the call ends in the
    unknown-option error with no variable declared. *)
Theorem documented_sigma_key_is_rejected h obs cps d0 T diff priors r :
  let h0 := entry_heap h priors in
  let p := entry_ref h priors in
  let res := call h obs cps d0 T diff priors in
  refs_ok h0 cps p = true ->
  r ∈ cps ->
  dict_mem "prior_sigma_begin_transient" (dict_at h0 r) = true ->
  exists k, snd res = Raise (RuntimeError (unknown_prior_msg k)) /\ model (fst res) = [].
Proof.
  intros h0 p res Hrefs Hr Hkey.
  assert (Hcfg : config_ok h0 cps p = false).
  { apply not_true_is_false. intros Hcfg. unfold config_ok in Hcfg.
    apply andb_true_iff in Hcfg as [_ Hall]. rewrite forallb_forall in Hall.
    apply list_elem_of_In, Hall in Hr. rewrite all_known_spec in Hr.
    apply dict_mem_keys, Hr in Hkey. discriminate Hkey. }
  destruct (call_config_bad h obs cps d0 T diff priors Hrefs Hcfg) as (h1 & k & Hc).
  exists k. subst res. by rewrite Hc.
Qed.

Lemma documented_sigma_key_is_rejected_witness :
  exists k,
    snd (call [[(date_key, VDate (day 20)); ("prior_sigma_begin_transient", VNum 3)]]
              [1; 2; 3]%Q [0%nat] (day 0) 40 13 None)
    = Raise (RuntimeError (unknown_prior_msg k)).
Proof.
  destruct (documented_sigma_key_is_rejected
              [[(date_key, VDate (day 20)); ("prior_sigma_begin_transient", VNum 3)]]
              [1; 2; 3]%Q [0%nat] (day 0) 40 13 None 0%nat eq_refl
              (list_elem_of_here _ _) eq_refl) as (k & Hk & _).
  exists k. exact Hk.
Defined.
